(** * typedoc-plugin-toc-group: the tag indexer and the tree regrouper

    A shallow embedding of [src/plugin.ts].  The plugin listens to three
    events of a documentation build:

    - [onBegin] reads the options and compiles the grouping pattern and
      the kind sort table;
    - [onBeginResolve] scans the comment tags of every reflection and
      attaches the aggregate record to the project;
    - [onBeginRendererPage] builds the default navigation tree of a page
      and regroups its top level ([buildGroupTocContent]).

    JavaScript values are modelled as follows.  Arrays are lists, the
    [Set] of deprecated names is a [gset string], the sort table (an
    object that is only written and read by key) is a [gmap string nat]
    of its own properties, and [mapedTocData] (an object whose key order
    is observed through [Object.keys]) is an association list of its own
    properties in creation order.  A read of a property that is not an
    own one falls through to [Object.prototype] ([JsObject.inherits]),
    and [Object.keys] lists the array indices first ([JsObject.keys]).  A
    thrown [TypeError] is the [TypeError] outcome of [Result], and the
    value [NaN] is a value of [JsNumber]. *)

From Stdlib Require Import String Ascii List ZArith NArith Lia Bool.
From Stdlib Require Import DecimalString.
From stdpp Require Import base gmap strings list.

Import ListNotations.
#[local] Set Warnings "-register-all".
Local Open Scope string_scope.
Local Open Scope list_scope.

(* ================================================================== *)
(** * Outcomes of fallible code *)

Inductive Result (A : Type) : Type :=
| Ok (a : A)
| TypeError.

Arguments Ok {A} a.
Arguments TypeError {A}.

#[global] Instance Result_ret : MRet Result := fun _ a => Ok a.

#[global] Instance Result_bind : MBind Result := fun _ _ f m =>
  match m with
  | Ok a => f a
  | TypeError => TypeError
  end.

(** [o?.field] on a possibly undefined object: reading a property of
    [undefined] throws. *)
Definition deref {A : Type} (o : option A) : Result A :=
  match o with
  | Some a => Ok a
  | None => TypeError
  end.

Fixpoint mapM {A B : Type} (f : A -> Result B) (l : list A) : Result (list B) :=
  match l with
  | [] => Ok []
  | x :: t => y ← f x; ys ← mapM f t; Ok (y :: ys)
  end.

(** A loop whose body may throw. *)
Fixpoint foldM {A B : Type} (f : A -> B -> Result A) (l : list B) (a : A) : Result A :=
  match l with
  | [] => Ok a
  | x :: t => a' ← f a x; foldM f t a'
  end.

(** A number as a comparator returns it. *)
Inductive JsNumber : Type :=
| Num (z : Z)
| NaN.

(* ================================================================== *)
(** * Strings *)

Module Str.

(** [s.split(sep)] for a one-character separator. *)
Fixpoint split (sep : ascii) (s : string) : list string :=
  match s with
  | EmptyString => [EmptyString]
  | String c rest =>
      if Ascii.eqb c sep then EmptyString :: split sep rest
      else match split sep rest with
           | [] => [String c EmptyString]
           | w :: ws => String c w :: ws
           end
  end.

Definition isLineBreak (c : ascii) : bool :=
  Ascii.eqb c "010" || Ascii.eqb c "013".

(** [s.split(/\r\n?|\n/)[0]]: the text before the first line break. *)
Fixpoint firstLine (s : string) : string :=
  match s with
  | EmptyString => EmptyString
  | String c rest => if isLineBreak c then EmptyString else String c (firstLine rest)
  end.

Definition lowerChar (c : ascii) : ascii :=
  let n := nat_of_ascii c in
  if (65 <=? n)%nat && (n <=? 90)%nat then ascii_of_nat (n + 32) else c.

(** [s.toLowerCase()] on ASCII text. *)
Fixpoint toLowerCase (s : string) : string :=
  match s with
  | EmptyString => EmptyString
  | String c rest => String (lowerChar c) (toLowerCase rest)
  end.

(** [s.replace(/\-/g, '')]. *)
Fixpoint stripHyphens (s : string) : string :=
  match s with
  | EmptyString => EmptyString
  | String c rest =>
      if Ascii.eqb c "-" then stripHyphens rest else String c (stripHyphens rest)
  end.

(** The text a template literal produces for a non-negative integer. *)
Definition ofN (n : N) : string := NilZero.string_of_uint (N.to_uint n).

(** [arr.indexOf(x) > -1] *)
Definition inArray (x : string) (arr : list string) : bool :=
  existsb (String.eqb x) arr.

End Str.

(* ================================================================== *)
(** * Regular expressions

    The plugin compiles two patterns: the constant [/^@deprecated$/] and
    [new RegExp(`@(${groupTags.join('|')})`)].  The second one carries no
    anchor, so [test] succeeds as soon as the text contains an [@]
    directly followed by one of the alternatives.  The alternatives are
    matched as literal text, which is what the compiled pattern does for
    names free of regular-expression operators ([plainName]).  An option
    entry that carries an operator compiles to another pattern, or to
    none at all ([new RegExp] throws on an unbalanced parenthesis): such
    entries are outside this model, and every theorem that reads the
    alternatives off the options assumes that the entries are plain. *)

Module RegExp.

Inductive t : Type :=
| Whole (lit : string)            (* /^lit$/ *)
| AtOneOf (alts : list string).   (* /@(a1|a2|...|an)/ *)

(** Does the pattern [@(a1|...|an)] match at the very start of [s]? *)
Definition matchHere (alts : list string) (s : string) : bool :=
  match s with
  | String "@" rest => existsb (fun a => String.prefix a rest) alts
  | _ => false
  end.

(** An unanchored search tries every start position from left to right. *)
Fixpoint search (alts : list string) (s : string) : bool :=
  matchHere alts s ||
  match s with
  | EmptyString => false
  | String _ rest => search alts rest
  end.

Definition test (re : t) (s : string) : bool :=
  match re with
  | Whole lit => String.eqb s lit
  | AtOneOf alts => search alts s
  end.

Definition isOperator (c : ascii) : bool :=
  existsb (Ascii.eqb c)
    ["092"; "^"; "$"; "."; "|"; "?"; "*"; "+"; "("; ")"; "["; "]"; "{"; "}"]%char.

Fixpoint plainName (s : string) : bool :=
  match s with
  | EmptyString => true
  | String c rest => negb (isOperator c) && plainName rest
  end.

(** The text holds no [@]. *)
Fixpoint noAt (s : string) : bool :=
  match s with
  | EmptyString => true
  | String c rest => negb (Ascii.eqb c "@") && noAt rest
  end.

End RegExp.

(* ================================================================== *)
(** * Plain objects used as ordered maps *)

Module JsObject.

Definition t (V : Type) : Type := list (string * V).

(** [obj[key]] *)
Fixpoint get {V : Type} (obj : t V) (key : string) : option V :=
  match obj with
  | [] => None
  | (k, v) :: rest => if String.eqb k key then Some v else get rest key
  end.

(** [obj[key] = v]: an existing property keeps its place, a new one is
    added last. *)
Fixpoint set {V : Type} (obj : t V) (key : string) (v : V) : t V :=
  match obj with
  | [] => [(key, v)]
  | (k, w) :: rest =>
      if String.eqb k key then (k, v) :: rest else (k, w) :: set rest key v
  end.

(** The own property names in the order of their creation. *)
Definition ownKeys {V : Type} (obj : t V) : list string := map fst obj.

(** An array index: the canonical decimal text of an integer below
    [2^32 - 1]. *)
Definition arrayIndex (key : string) : option N :=
  match NilEmpty.uint_of_string key with
  | Some u =>
      let n := N.of_uint u in
      if String.eqb (Str.ofN n) key && (n <? 4294967295)%N then Some n else None
  | None => None
  end.

Definition isArrayIndex (key : string) : bool :=
  match arrayIndex key with
  | Some _ => true
  | None => false
  end.

Definition indexValue (key : string) : N := default 0%N (arrayIndex key).

Fixpoint insertIndex (key : string) (sorted : list string) : list string :=
  match sorted with
  | [] => [key]
  | k :: rest =>
      if (indexValue key <=? indexValue k)%N then key :: k :: rest
      else k :: insertIndex key rest
  end.

(** Array indices in ascending numeric order, then the other names in
    the order given. *)
Definition indicesFirst (names : list string) : list string :=
  fold_right insertIndex [] (List.filter isArrayIndex names) ++
  List.filter (fun k => negb (isArrayIndex k)) names.

(** [Object.keys(obj)] *)
Definition keys {V : Type} (obj : t V) : list string := indicesFirst (ownKeys obj).

(** The property names every plain object inherits from
    [Object.prototype]; each of them reads as a function or an object. *)
Definition inheritedNames : list string :=
  ["constructor"; "__defineGetter__"; "__defineSetter__"; "hasOwnProperty";
   "__lookupGetter__"; "__lookupSetter__"; "isPrototypeOf"; "propertyIsEnumerable";
   "toString"; "valueOf"; "__proto__"; "toLocaleString"].

Definition inherits (key : string) : bool := Str.inArray key inheritedNames.

Arguments inherits : simpl never.

End JsObject.

(* ================================================================== *)
(** * The reflection graph and the navigation tree (typedoc's models) *)

Record CommentTag : Type := mkCommentTag {
  tagName : string;
  text : string
}.

Record Comment : Type := mkComment {
  tags : option (list CommentTag)
}.

(** [isProject] stands for [instanceof ProjectReflection]; [kind] is the
    numeric [ReflectionKind]. *)
Inductive Reflection : Type := mkReflection {
  name : string;
  kind : N;
  kindString : option string;
  isProject : bool;
  comment : option Comment;
  parent : option Reflection
}.

(** [r.kindOf(mask)] *)
Definition kindOf (r : Reflection) (mask : N) : bool :=
  negb (N.eqb (N.land (kind r) mask) 0).

(** A navigation node.  [navParent] is the back-pointer, kept as the
    title of the node it points to; [deprecated] and [groupTitle] are the
    two properties the plugin adds. *)
Inductive NavigationItem : Type := mkNavigationItem {
  title : string;
  url : string;
  navParent : option string;
  children : option (list NavigationItem);
  reflection : option Reflection;
  deprecated : bool;
  groupTitle : option string
}.

(** [new NavigationItem(title, url)]: no parent, no children, no
    reflection. *)
Definition newNavigationItem (title url : string) : NavigationItem :=
  mkNavigationItem title url None None None false None.

(** [new NavigationItem()] *)
Definition emptyNavigationItem : NavigationItem :=
  newNavigationItem EmptyString EmptyString.

(* ================================================================== *)
(** * The plugin *)

Definition PLUGIN_NAME : string := "toc-group".

Definition DEFAULT_UNGROUPED_NAME : string := "Others".

Definition DEPRECATED_REGEXP : RegExp.t := RegExp.Whole "@deprecated".

(** The three option values the plugin reads; [None] is an option that
    was not set. *)
Record Options : Type := mkOptions {
  tocGroupOption : option string;
  tocKindSortOrder : option (list string);
  homePathOption : option string
}.

(** The fields of the plugin instance that [onBegin] assigns. *)
Record TocGroupPlugin : Type := mkTocGroupPlugin {
  regexp : RegExp.t;
  sortOrder : gmap string nat
}.

Definition defaultTags : list string := ["group"; "kind"; "platform"].

(** [a || b] on strings: the empty string is falsy. *)
Definition orElse (a : option string) (b : string) : string :=
  match a with
  | Some s => if (String.length s =? 0)%nat then b else s
  | None => b
  end.

(** [acc[key] = idx] on a plain object: the assignment creates or
    overwrites an own property, except for [__proto__], whose setter
    ignores a number. *)
Definition assignRank (acc : gmap string nat) (key : string) (idx : nat)
  : gmap string nat :=
  if String.eqb key "__proto__" then acc else <[key := idx]> acc.

(** The [reduce] of [onBegin]: [acc[item.toLowerCase()] = idx]. *)
Fixpoint reduceSortOrder (items : list string) (idx : nat) (acc : gmap string nat)
  : gmap string nat :=
  match items with
  | [] => acc
  | item :: rest =>
      reduceSortOrder rest (S idx) (assignRank acc (Str.toLowerCase item) idx)
  end.

Definition onBegin (options : Options) : TocGroupPlugin :=
  let userTags := Str.split "," (orElse (tocGroupOption options) EmptyString) in
  let groupTags :=
    List.filter (fun item => negb (String.length item =? 0)%nat) (defaultTags ++ userTags) in
  let sortOrder := default [] (tocKindSortOrder options) in
  {| regexp := RegExp.AtOneOf groupTags;
     sortOrder := reduceSortOrder sortOrder 0 ∅ |}.

(** [sortOrder[key] || 0]: the own rank, else the function or object the
    table inherits under that name ([None]: not a number), else 0. *)
Definition rankOrZero (sortOrder : gmap string nat) (key : string) : option nat :=
  match sortOrder !! key with
  | Some idx => Some idx
  | None => if JsObject.inherits key then None else Some 0%nat
  end.

(** The difference of the two ranks; it is [NaN] when one side is not a
    number. *)
Definition compareKind (sortOrder : gmap string nat) (a b : string) : JsNumber :=
  let aIndex := rankOrZero sortOrder (Str.toLowerCase a) in
  let bIndex := rankOrZero sortOrder (Str.toLowerCase b) in
  match aIndex, bIndex with
  | Some x, Some y => Num (Z.of_nat x - Z.of_nat y)
  | _, _ => NaN
  end.

(* ------------------------------------------------------------------ *)
(** ** The tag indexer ([onBeginResolve]) *)

(** The record stored under [project[PLUGIN_NAME]]. *)
Record TocGroupData : Type := mkTocGroupData {
  groupedData : list string;
  deprecatedData : gset string;
  mapedTocData : JsObject.t (list string);
  homePath : string;
  dataRegexp : RegExp.t;
  dataSortOrder : gmap string nat
}.

(** The three accumulators of the scan. *)
Record Scan : Type := mkScan {
  scanGrouped : list string;
  scanDeprecated : gset string;
  scanMaped : JsObject.t (list string)
}.

Definition emptyScan : Scan := mkScan [] ∅ [].

(** [if (!obj[key]) obj[key] = []; obj[key].push(x)].  When [key] is not
    an own property but an inherited name, [obj[key]] is truthy, no list
    is created and the call of [push] throws. *)
Definition pushTo (obj : JsObject.t (list string)) (key x : string)
  : Result (JsObject.t (list string)) :=
  match JsObject.get obj key with
  | Some l => Ok (JsObject.set obj key (l ++ [x]))
  | None =>
      if JsObject.inherits key then TypeError
      else Ok (JsObject.set obj key [x])
  end.

(** [regexp.test(`@${tag.tagName}`)] *)
Definition matchesTag (re : RegExp.t) (tag : CommentTag) : bool :=
  RegExp.test re (String "@" (tagName tag)).

(** The loop over the tags of one reflection; the grouping branch ends
    with [break]. *)
Fixpoint scanTags (re : RegExp.t) (refName : string) (tags : list CommentTag)
    (st : Scan) : Result Scan :=
  match tags with
  | [] => Ok st
  | tag :: rest =>
      let deprecatedData :=
        if matchesTag DEPRECATED_REGEXP tag
        then {[refName]} ∪ scanDeprecated st
        else scanDeprecated st in
      if matchesTag re tag then
        let groupKey := Str.firstLine (text tag) in
        maped ← pushTo (scanMaped st) groupKey refName;
        Ok {| scanGrouped := scanGrouped st ++ [refName];
              scanDeprecated := deprecatedData;
              scanMaped := maped |}
      else
        scanTags re refName rest
          {| scanGrouped := scanGrouped st;
             scanDeprecated := deprecatedData;
             scanMaped := scanMaped st |}
  end.

(** One iteration of the loop over the reflections. *)
Definition scanReflection (re : RegExp.t) (st : Scan) (ref : Reflection) : Result Scan :=
  match comment ref with
  | None => Ok st
  | Some c =>
      match tags c with
      | None => Ok st
      | Some ts => scanTags re (name ref) ts st
      end
  end.

(** [context.project]: its name and its reflections in iteration order. *)
Record Project : Type := mkProject {
  projectName : string;
  reflections : list Reflection
}.

Definition defaultHomePath (project : Project) : string :=
  "modules/_index_." +:+ Str.stripHyphens (projectName project) +:+ ".html".

(** The record built from the accumulators once the loops are over. *)
Definition recordOf (this : TocGroupPlugin) (options : Options) (project : Project)
    (st : Scan) : TocGroupData :=
  {| groupedData := scanGrouped st;
     deprecatedData := scanDeprecated st;
     mapedTocData := scanMaped st;
     homePath := orElse (homePathOption options) (defaultHomePath project);
     dataRegexp := regexp this;
     dataSortOrder := sortOrder this |}.

(** [onBeginResolve]: the record stored on the project, or the error
    that ends the scan. *)
Definition onBeginResolve (this : TocGroupPlugin) (options : Options)
    (project : Project) : Result TocGroupData :=
  st ← foldM (scanReflection (regexp this)) (reflections project) emptyScan;
  Ok (recordOf this options project st).

(* ------------------------------------------------------------------ *)
(** ** The tree regrouper ([buildGroupTocContent]) *)

Definition setChildren (item : NavigationItem) (cs : option (list NavigationItem))
  : NavigationItem :=
  mkNavigationItem (title item) (url item) (navParent item) cs
    (reflection item) (deprecated item) (groupTitle item).

(** [item['deprecated'] = true] *)
Definition setDeprecated (item : NavigationItem) : NavigationItem :=
  mkNavigationItem (title item) (url item) (navParent item) (children item)
    (reflection item) true (groupTitle item).

(** [item.parent = root], where [root] is the group node titled [key]. *)
Definition setParent (item : NavigationItem) (key : string) : NavigationItem :=
  mkNavigationItem (title item) (url item) (Some key) (children item)
    (reflection item) (deprecated item) (groupTitle item).

(** The titles that [groupedData] does not list, in tree order. *)
Definition defaultGroups (d : TocGroupData) (items : list NavigationItem) : list string :=
  map title
    (List.filter (fun item => negb (Str.inArray (title item) (groupedData d))) items).

Definition setMaped (d : TocGroupData) (m : JsObject.t (list string)) : TocGroupData :=
  mkTocGroupData (groupedData d) (deprecatedData d) m (homePath d)
    (dataRegexp d) (dataSortOrder d).

(** "set ungrouped": the block guarded by
    [!mapedTocData[DEFAULT_UNGROUPED_NAME]]. *)
Definition setUngrouped (d : TocGroupData) (toc : NavigationItem) : Result TocGroupData :=
  match JsObject.get (mapedTocData d) DEFAULT_UNGROUPED_NAME with
  | Some _ => Ok d
  | None =>
      items ← deref (children toc);
      let others := defaultGroups d items in
      if (length others =? 0)%nat then Ok d
      else Ok (setMaped d (JsObject.set (mapedTocData d) DEFAULT_UNGROUPED_NAME others))
  end.

(** The probe of the kind filter: [regexp.test(`@!${kind}`)]. *)
Definition kindProbe (r : Reflection) : string :=
  String "@" (String "!" (Str.ofN (kind r))).

(** The callback handed to [filter] for the group [key]: the verdict and
    the item as the call leaves it. *)
Definition groupFilter (d : TocGroupData) (key : string) (groupedValue : list string)
    (item : NavigationItem) : Result (bool * NavigationItem) :=
  r ← deref (reflection item);
  if RegExp.test (dataRegexp d) (kindProbe r) then Ok (false, item)
  else
    let item1 :=
      if bool_decide (title item ∈ deprecatedData d) then setDeprecated item else item in
    if Str.inArray (title item) groupedValue
    then Ok (true, setParent item1 key)
    else Ok (false, item1).

(** [children.filter(cb)] where [cb] writes to the items it visits: the
    items are shared between the old child array and every group, so the
    pass returns the array as it leaves it, together with the verdicts
    that say which of its items the new array refers to. *)
Definition filterShared (cb : NavigationItem -> Result (bool * NavigationItem))
    (store : list NavigationItem) : Result (list bool * list NavigationItem) :=
  rs ← mapM cb store;
  Ok (map fst rs, map snd rs).

(** [Object.keys(mapedTocData).map(...)], threading the shared items. *)
Fixpoint mapKeys (d : TocGroupData) (keys : list string) (store : list NavigationItem)
  : Result (list (string * list bool) * list NavigationItem) :=
  match keys with
  | [] => Ok ([], store)
  | key :: rest =>
      groupedValue ← deref (JsObject.get (mapedTocData d) key);
      r1 ← filterShared (groupFilter d key groupedValue) store;
      r2 ← mapKeys d rest (snd r1);
      Ok ((key, fst r1) :: fst r2, snd r2)
  end.

(** The items a verdict list refers to. *)
Definition select (kept : list bool) (store : list NavigationItem) : list NavigationItem :=
  map snd (List.filter fst (combine kept store)).

(** The group node, read once every pass is over. *)
Definition groupRoot (d : TocGroupData) (store : list NavigationItem)
    (g : string * list bool) : NavigationItem :=
  mkNavigationItem (fst g) (homePath d) None (Some (select (snd g) store))
    None false (Some (fst g)).

(** The comparator handed to [sort]. *)
Definition compareGroups (d : TocGroupData) (a b : NavigationItem) : Result JsNumber :=
  ra ← deref (reflection a);
  rb ← deref (reflection b);
  aKind ← deref (kindString ra);
  bKind ← deref (kindString rb);
  Ok (compareKind (dataSortOrder d) aKind bKind).

(** Does the comparator leave its first argument in front?  [NaN]
    counts as zero. *)
Definition notAfter (c : JsNumber) : bool :=
  match c with
  | Num z => (z <=? 0)%Z
  | NaN => true
  end.

(** [arr.sort(cmp)]: a stable sort that calls [cmp] as soon as there are
    two elements; a throwing [cmp] aborts it. *)
Fixpoint insertM {A : Type} (cmp : A -> A -> Result JsNumber) (x : A) (sorted : list A)
  : Result (list A) :=
  match sorted with
  | [] => Ok [x]
  | y :: rest =>
      c ← cmp x y;
      if notAfter c then Ok (x :: y :: rest)
      else (rest' ← insertM cmp x rest; Ok (y :: rest'))
  end.

Fixpoint sortM {A : Type} (cmp : A -> A -> Result JsNumber) (l : list A)
  : Result (list A) :=
  match l with
  | [] => Ok []
  | x :: rest => sorted ← sortM cmp rest; insertM cmp x sorted
  end.

(** The body of the outer [if], once the ungrouped block has run. *)
Definition regroup (d : TocGroupData) (toc : NavigationItem) : Result NavigationItem :=
  items ← deref (children toc);
  r ← mapKeys d (JsObject.keys (mapedTocData d)) items;
  updatedToc ← sortM (compareGroups d) (map (groupRoot d (snd r)) (fst r));
  if (length updatedToc =? 0)%nat then Ok (setChildren toc (Some (snd r)))
  else Ok (setChildren toc (Some updatedToc)).

(** [buildGroupTocContent]: the aggregate record as the call leaves it,
    and the page's tree (or the error thrown). *)
Definition buildGroupTocContent (d : TocGroupData) (toc : NavigationItem)
  : TocGroupData * Result NavigationItem :=
  if (length (JsObject.keys (mapedTocData d)) =? 0)%nat then (d, Ok toc)
  else
    match setUngrouped d toc with
    | TypeError => (d, TypeError)
    | Ok d1 => (d1, regroup d1 toc)
    end.

(* ------------------------------------------------------------------ *)
(** ** The page handler ([onBeginRendererPage]) *)

(** What the handler takes from typedoc: the [SomeModule] mask of
    [ReflectionKind], the renderer's [toc] restriction and
    [TocPlugin.buildToc], which fills the fresh root it is given. *)
Class TocPlugin : Type := {
  SomeModule : N;
  ownerToc : option (list string);
  buildToc : Reflection -> list Reflection -> NavigationItem -> option (list string)
             -> NavigationItem
}.

(** [model] is [None] when [page.model] is not a [Reflection]. *)
Record PageEvent : Type := mkPageEvent {
  model : option Reflection;
  toc : option NavigationItem
}.

Section PageHandler.
Context `{TocPlugin}.

(** The [while] loop that collects the trail. *)
Fixpoint climb (model : Reflection) (trail : list Reflection)
  : Result (Reflection * list Reflection) :=
  if isProject model || kindOf model SomeModule then Ok (model, trail)
  else
    match parent model with
    | Some p => climb p (model :: trail)
    | None => TypeError
    end.

Definition onBeginRendererPage (d : TocGroupData) (page : PageEvent)
  : TocGroupData * Result PageEvent :=
  match model page with
  | None => (d, Ok page)
  | Some m =>
      match climb m [] with
      | TypeError => (d, TypeError)
      | Ok (top, trail) =>
          let toc := buildToc top trail emptyNavigationItem ownerToc in
          let r := buildGroupTocContent d toc in
          (fst r, toc' ← snd r; Ok (mkPageEvent (model page) (Some toc')))
      end
  end.

End PageHandler.

(* ------------------------------------------------------------------ *)
(** ** The states of the aggregate record during a build

    The record is created by [onBeginResolve]; afterwards only
    [buildGroupTocContent] writes to it, once per rendered page. *)

Inductive reachable : TocGroupData -> Prop :=
| reach_indexed (this : TocGroupPlugin) (options : Options) (project : Project)
    (d : TocGroupData) :
    onBeginResolve this options project = Ok d -> reachable d
| reach_page (d : TocGroupData) (toc : NavigationItem) :
    reachable d -> reachable (fst (buildGroupTocContent d toc)).

(** [groupedData], read as a set, is the union of the member lists. *)
Definition groupedIsUnion (grouped : list string) (m : JsObject.t (list string)) : Prop :=
  forall n, In n grouped <-> exists k l, JsObject.get m k = Some l /\ In n l.

(** The same with the list of one key left out. *)
Definition groupedIsUnionBut (key : string) (grouped : list string)
    (m : JsObject.t (list string)) : Prop :=
  forall n, In n grouped <->
    exists k l, k <> key /\ JsObject.get m k = Some l /\ In n l.

(** The two shapes of the record: as the indexer leaves it, and with the
    list of ungrouped titles added under [DEFAULT_UNGROUPED_NAME]. *)
Definition indexInvariant (d : TocGroupData) : Prop :=
  groupedIsUnion (groupedData d) (mapedTocData d) \/
  (exists others,
     JsObject.get (mapedTocData d) DEFAULT_UNGROUPED_NAME = Some others /\
     others <> [] /\
     (forall n, In n others -> ~ In n (groupedData d)) /\
     groupedIsUnionBut DEFAULT_UNGROUPED_NAME (groupedData d) (mapedTocData d)).

(** The verdict of [groupFilter] as a function of the item alone. *)
Definition verdict (d : TocGroupData) (groupedValue : list string)
    (item : NavigationItem) : bool :=
  match reflection item with
  | Some r =>
      negb (RegExp.test (dataRegexp d) (kindProbe r))
      && Str.inArray (title item) groupedValue
  | None => false
  end.

(** Two states of one navigation node: the callback only writes the
    back-pointer and the deprecation flag. *)
Definition sameNode (a b : NavigationItem) : Prop :=
  title a = title b /\ url a = url b /\ children a = children b /\
  reflection a = reflection b /\ groupTitle a = groupTitle b.

(** The children of a node, none when the property is undefined. *)
Definition childList (item : NavigationItem) : list NavigationItem :=
  default [] (children item).

(** What a pass may do to an item: it stays the same node and a set
    deprecation flag stays set. *)
Definition evolves (a b : NavigationItem) : Prop :=
  sameNode a b /\ (deprecated a = true -> deprecated b = true).

(** An item that passed the kind filter carries the flag if its title is
    a deprecated name. *)
Definition flagged (d : TocGroupData) (item : NavigationItem) : Prop :=
  forall r, reflection item = Some r ->
    RegExp.test (dataRegexp d) (kindProbe r) = false ->
    title item ∈ deprecatedData d ->
    deprecated item = true.

(** One entry of the result: the key, and the verdicts of its pass. *)
Definition groupOf (d : TocGroupData) (store : list NavigationItem)
    (key : string) (g : string * list bool) : Prop :=
  fst g = key /\
  exists gv, JsObject.get (mapedTocData d) key = Some gv /\
             snd g = map (verdict d gv) store.

(** The node [new NavigationItem(key, homePath)] with its [groupTitle]. *)
Definition isGroupNode (d : TocGroupData) (root : NavigationItem) (key : string) : Prop :=
  title root = key /\ url root = homePath d /\
  reflection root = None /\ groupTitle root = Some key.

(** The scan only ever adds names. *)
Definition scanGrows (st st' : Scan) : Prop :=
  (forall x, x ∈ scanDeprecated st -> x ∈ scanDeprecated st') /\
  (forall k l x, JsObject.get (scanMaped st) k = Some l -> In x l ->
     exists l', JsObject.get (scanMaped st') k = Some l' /\ In x l').

(* ------------------------------------------------------------------ *)
(** ** The home page test ([isHomePage]) *)

(** [s.indexOf(needle) > -1] *)
Fixpoint includes (needle s : string) : bool :=
  String.prefix needle s ||
  match s with
  | EmptyString => false
  | String _ rest => includes needle rest
  end.

(** What [isHomePage] reads of the page event: [page.url] and
    [page.project], and of the project the record stored under
    [PLUGIN_NAME] (absent before the indexer has run). *)
Record RenderedPage : Type := mkRenderedPage {
  pageUrl : option string;
  pageProject : option (option TocGroupData)
}.

(** The body of the [try] block. *)
Definition homePathFound (url : string) (project : option TocGroupData) : Result bool :=
  d ← deref project;
  Ok (includes (homePath d) url).

(** [isHomePage]: the guard [page && page.url && page.project], then the
    [try] block; the [catch] clause logs the error and falls through to
    [return false]. *)
Definition isHomePage (page : option RenderedPage) : bool :=
  match page with
  | None => false
  | Some p =>
      match pageUrl p, pageProject p with
      | Some url, Some project =>
          if (String.length url =? 0)%nat then false
          else
            match homePathFound url project with
            | Ok found => found
            | TypeError => false
            end
      | _, _ => false
      end
  end.

(* ------------------------------------------------------------------ *)
(** ** The accumulators of a scan that returns

    The values the loops leave when no push throws; a scan that returns
    ends with them ([scanTags_Ok], [onBeginResolve_Ok]). *)

(** The object after a push that does not throw. *)
Definition pushed (obj : JsObject.t (list string)) (key x : string)
  : JsObject.t (list string) :=
  match JsObject.get obj key with
  | Some l => JsObject.set obj key (l ++ [x])
  | None => JsObject.set obj key [x]
  end.

(** The accumulators after the tags of one reflection, when no push
    throws. *)
Fixpoint tagsOutcome (re : RegExp.t) (refName : string) (tags : list CommentTag)
    (st : Scan) : Scan :=
  match tags with
  | [] => st
  | tag :: rest =>
      let deprecatedData :=
        if matchesTag DEPRECATED_REGEXP tag
        then {[refName]} ∪ scanDeprecated st
        else scanDeprecated st in
      if matchesTag re tag then
        {| scanGrouped := scanGrouped st ++ [refName];
           scanDeprecated := deprecatedData;
           scanMaped := pushed (scanMaped st) (Str.firstLine (text tag)) refName |}
      else
        tagsOutcome re refName rest
          {| scanGrouped := scanGrouped st;
             scanDeprecated := deprecatedData;
             scanMaped := scanMaped st |}
  end.

Definition reflectionOutcome (re : RegExp.t) (st : Scan) (ref : Reflection) : Scan :=
  match comment ref with
  | None => st
  | Some c =>
      match tags c with
      | None => st
      | Some ts => tagsOutcome re (name ref) ts st
      end
  end.

(* ------------------------------------------------------------------ *)
(** ** What the scan amounts to

    Descriptions of the outcome of the indexer that do not follow its
    loops: they are what the theorems below compare the code with. *)

(** [key] is [text] cut before its first carriage return or line feed. *)
Fixpoint isFirstLine (key text : string) : bool :=
  match key, text with
  | EmptyString, EmptyString => true
  | EmptyString, String c _ => Ascii.eqb c "010" || Ascii.eqb c "013"
  | String k key', String c text' =>
      Ascii.eqb k c && negb (Ascii.eqb c "010" || Ascii.eqb c "013")
      && isFirstLine key' text'
  | String _ _, EmptyString => false
  end.

(** No own property of the object bears a name of [Object.prototype]. *)
Definition ownNamesPlain (m : JsObject.t (list string)) : Prop :=
  forall k l, JsObject.get m k = Some l -> JsObject.inherits k = false.

(** Every entry of the comma-separated option is free of
    regular-expression operators. *)
Definition plainOptions (options : Options) : Prop :=
  Forall (fun entry => RegExp.plainName entry = true)
    (Str.split "," (orElse (tocGroupOption options) EmptyString)).

(** The tags of a reflection, none if it has no comment or no tag list. *)
Definition tagsOf (ref : Reflection) : list CommentTag :=
  match comment ref with
  | Some c => default [] (tags c)
  | None => []
  end.

(** The first tag of a reflection that the grouping pattern matches. *)
Definition firstGroupingTag (re : RegExp.t) (ref : Reflection) : option CommentTag :=
  List.find (matchesTag re) (tagsOf ref).

Definition isGrouped (re : RegExp.t) (ref : Reflection) : bool :=
  match firstGroupingTag re ref with
  | Some _ => true
  | None => false
  end.

(** Is [key] the first line of the body of the first grouping tag? *)
Definition hasGroupKey (re : RegExp.t) (key : string) (ref : Reflection) : bool :=
  match firstGroupingTag re ref with
  | Some t => isFirstLine key (text t)
  | None => false
  end.

(** The names of the reflections whose group key is [key], in scan order. *)
Definition membersOf (re : RegExp.t) (refs : list Reflection) (key : string) : list string :=
  map name (List.filter (hasGroupKey re key) refs).

(** The tags the loop visits: all of them up to the first grouping tag,
    that one included. *)
Fixpoint visitedTags (re : RegExp.t) (ts : list CommentTag) : list CommentTag :=
  match ts with
  | [] => []
  | t :: rest => if matchesTag re t then [t] else t :: visitedTags re rest
  end.

Definition deprecationSeen (re : RegExp.t) (ref : Reflection) : bool :=
  existsb (matchesTag DEPRECATED_REGEXP) (visitedTags re (tagsOf ref)).

(** The group keys met during the scan, one per grouped reflection. *)
Definition groupKeys (re : RegExp.t) (refs : list Reflection) : list string :=
  flat_map
    (fun ref =>
       match firstGroupingTag re ref with
       | Some t => [Str.firstLine (text t)]
       | None => []
       end)
    refs.

(** The first grouping tags of the reflections, in scan order. *)
Definition groupingTags (re : RegExp.t) (refs : list Reflection) : list CommentTag :=
  flat_map
    (fun ref =>
       match firstGroupingTag re ref with
       | Some t => [t]
       | None => []
       end)
    refs.

(** A list without its repetitions, each element at its first place. *)
Fixpoint firstSeen (l : list string) : list string :=
  match l with
  | [] => []
  | k :: rest => k :: List.filter (fun k' => negb (String.eqb k' k)) (firstSeen rest)
  end.

(** The node has a reflection. *)
Definition hasReflection (item : NavigationItem) : Prop := reflection item <> None.

(** The page has no ungrouped child. *)
Definition allGrouped (d : TocGroupData) (items : list NavigationItem) : Prop :=
  forall x, In x items -> In (title x) (groupedData d).

(** A text without line break. *)
Definition singleLine (s : string) : Prop := Str.firstLine s = s.

(** The shape every state of [mapedTocData] has. *)
Definition wellFormedGroups (m : JsObject.t (list string)) : Prop :=
  NoDup (JsObject.keys m) /\
  forall k l, JsObject.get m k = Some l -> l <> [] /\ singleLine k.

(** The child of a group as the callback leaves it. *)
Definition memberNode (d : TocGroupData) (key : string) (item : NavigationItem)
  : NavigationItem :=
  setParent
    (if bool_decide (title item ∈ deprecatedData d) then setDeprecated item else item)
    key.


(** The chain of parents above a reflection. *)
Fixpoint ancestors (r : Reflection) : list Reflection :=
  match parent r with
  | Some p => p :: ancestors p
  | None => []
  end.

(* ================================================================== *)
(** * Sample builds *)

Module Sample.

Definition noOptions : Options := mkOptions None None None.

Definition tag (n body : string) : CommentTag := mkCommentTag n body.

Definition root : Reflection := mkReflection "my-lib" 0 None true None None.

(** A top-level declaration of the project; 64, 128 and 256 are the
    kinds of functions, classes and interfaces. *)
Definition declaration (n : string) (k : N) (ks : string) (ts : list CommentTag)
  : Reflection :=
  mkReflection n k (Some ks) false (Some (mkComment (Some ts))) (Some root).

(** The node the tree builder creates for a declaration. *)
Definition itemOf (r : Reflection) : NavigationItem :=
  mkNavigationItem (name r) (name r +:+ ".html") (Some EmptyString) None (Some r) false None.

Definition treeOf (rs : list Reflection) : NavigationItem :=
  setChildren emptyNavigationItem (Some (map itemOf rs)).

(** A tree builder that lists the given declarations under the root it
    is handed. *)
Definition listing (rs : list Reflection) : TocPlugin :=
  {| SomeModule := 3;
     ownerToc := None;
     buildToc := fun _ _ top _ => setChildren top (Some (map itemOf rs)) |}.

(** The record the indexer stores for a sample project.  Where the
    indexer throws there is no record, and [index] is the record of an
    empty scan; it is used below only for builds on which the indexer
    returns ([sample_builds_are_indexed]). *)
Definition index (options : Options) (rs : list Reflection) : TocGroupData :=
  match onBeginResolve (onBegin options) options (mkProject "my-lib" rs) with
  | Ok d => d
  | TypeError => recordOf (onBegin options) options (mkProject "my-lib" rs) emptyScan
  end.

Definition Foo := declaration "Foo" 64 "Function" [tag "group" "Alpha"].
Definition Bar := declaration "Bar" 64 "Function" [tag "group" "Alpha"].
Definition Baz := declaration "Baz" 128 "Class" [].
Definition Qux := declaration "Qux" 128 "Class" [tag "deprecated" EmptyString; tag "group" "Beta"].
Definition Corge :=
  declaration "Corge" 256 "Interface" [tag "group" "Gamma"; tag "platform" "web"].
Definition Grault := declaration "Grault" 64 "Function" [tag "grouping" "Delta"].
Definition Garply := declaration "Garply" 256 "Interface" [tag "group" "Beta"].
Definition Waldo := declaration "Waldo" 128 "Class" [tag "group" "Alpha"].
Definition Fred := declaration "Fred" 64 "Function" [tag "group" "Others"].
Definition Thud := declaration "Thud" 64 "Function" [tag "group" "constructor"].
Definition Plugh := declaration "Plugh" 64 "Function" [tag "group" "10"].
Definition Xyzzy := declaration "Xyzzy" 64 "Function" [tag "group" "2"].

Definition rootPage : PageEvent := mkPageEvent (Some root) None.

(** A method of a class: two levels below the project. *)
Definition Widget := declaration "Widget" 128 "Class" [].
Definition render : Reflection :=
  mkReflection "render" 2048 (Some "Method") false None (Some Widget).

End Sample.

(* ================================================================== *)
(** * Lemmas on the building blocks *)

Lemma inArray_In (x : string) (l : list string) :
  Str.inArray x l = true <-> In x l.
Proof.
  unfold Str.inArray. rewrite existsb_exists. split.
  - intros (y & Hy & Heq). apply String.eqb_eq in Heq. now subst.
  - intros Hin. exists x. split; [assumption | apply String.eqb_refl].
Qed.

Lemma inArray_not_In (x : string) (l : list string) :
  Str.inArray x l = false <-> ~ In x l.
Proof.
  rewrite <- inArray_In. destruct (Str.inArray x l); split; intros; congruence.
Qed.

Module JsObjectFacts.
Import JsObject.

Section WithValues.
Context {V : Type}.
Implicit Types (obj : t V) (k : string) (v : V).

Lemma get_set obj k v k' :
  get (set obj k v) k' = if String.eqb k k' then Some v else get obj k'.
Proof.
  induction obj as [| [k0 w] rest IH]; simpl.
  - destruct (String.eqb_spec k k'); reflexivity.
  - destruct (String.eqb_spec k0 k) as [-> | Hne]; simpl.
    + destruct (String.eqb_spec k k'); reflexivity.
    + rewrite IH. destruct (String.eqb_spec k0 k') as [-> | Hne'].
      * destruct (String.eqb_spec k k'); [congruence | reflexivity].
      * reflexivity.
Qed.

Lemma get_set_same obj k v : get (set obj k v) k = Some v.
Proof. rewrite get_set, String.eqb_refl. reflexivity. Qed.

Lemma get_set_other obj k v k' : k <> k' -> get (set obj k v) k' = get obj k'.
Proof.
  intros Hne. rewrite get_set. now destruct (String.eqb_spec k k').
Qed.

Lemma ownKeys_set_fresh obj k v :
  get obj k = None -> ownKeys (set obj k v) = ownKeys obj ++ [k].
Proof.
  unfold ownKeys. induction obj as [| [k0 w] rest IH]; simpl; [reflexivity |].
  destruct (String.eqb_spec k0 k); [discriminate |].
  intros Hget. simpl. now rewrite IH.
Qed.

Lemma ownKeys_set_present obj k v w :
  get obj k = Some w -> ownKeys (set obj k v) = ownKeys obj.
Proof.
  unfold ownKeys. induction obj as [| [k0 w0] rest IH]; simpl; [discriminate |].
  destruct (String.eqb_spec k0 k); [reflexivity |].
  intros Hget. simpl. now rewrite IH.
Qed.

Lemma get_Some_ownKeys obj k v : get obj k = Some v -> In k (ownKeys obj).
Proof.
  unfold ownKeys. induction obj as [| [k0 w] rest IH]; simpl; [discriminate |].
  destruct (String.eqb_spec k0 k); [now left | auto].
Qed.

Lemma ownKeys_get_Some obj k : In k (ownKeys obj) -> exists v, get obj k = Some v.
Proof.
  unfold ownKeys. induction obj as [| [k0 w] rest IH]; simpl; [tauto |].
  intros [-> | Hin].
  - rewrite String.eqb_refl. eauto.
  - destruct (String.eqb_spec k0 k); eauto.
Qed.

Lemma insertIndex_Permutation (k : string) (l : list string) :
  Permutation (insertIndex k l) (k :: l).
Proof.
  induction l as [| y l IH]; simpl; [reflexivity |].
  destruct (indexValue k <=? indexValue y)%N; [reflexivity |].
  rewrite IH. apply perm_swap.
Qed.

Lemma filter_split_Permutation {A : Type} (f : A -> bool) (l : list A) :
  Permutation (List.filter f l ++ List.filter (fun x => negb (f x)) l) l.
Proof.
  induction l as [| x l IH]; simpl; [reflexivity |].
  destruct (f x); simpl.
  - now constructor.
  - rewrite <- Permutation_middle. now constructor.
Qed.

(** [Object.keys] lists the own property names, each once. *)
Lemma indicesFirst_Permutation (names : list string) :
  Permutation (indicesFirst names) names.
Proof.
  unfold indicesFirst. rewrite <- (filter_split_Permutation isArrayIndex names) at 3.
  apply Permutation_app_tail.
  induction (List.filter isArrayIndex names) as [| k l IH]; simpl; [reflexivity |].
  rewrite insertIndex_Permutation. now constructor.
Qed.

Lemma keys_Permutation obj : Permutation (keys obj) (ownKeys obj).
Proof. apply indicesFirst_Permutation. Qed.

Lemma length_keys obj : length (keys obj) = length obj.
Proof.
  rewrite (Permutation_length (keys_Permutation obj)). unfold ownKeys. apply length_map.
Qed.

Lemma In_keys obj k : In k (keys obj) <-> In k (ownKeys obj).
Proof.
  split; apply Permutation_in; [| symmetry]; apply keys_Permutation.
Qed.

Lemma get_Some_keys obj k v : get obj k = Some v -> In k (keys obj).
Proof. intros Hget. apply In_keys. eapply get_Some_ownKeys; eauto. Qed.

Lemma keys_get_Some obj k : In k (keys obj) -> exists v, get obj k = Some v.
Proof. intros Hin. now apply ownKeys_get_Some, In_keys. Qed.

Lemma length_set_fresh obj k v :
  get obj k = None -> length (set obj k v) = S (length obj).
Proof.
  intros Hget. pose proof (ownKeys_set_fresh obj k v Hget) as Hk.
  apply (f_equal (@length string)) in Hk. unfold ownKeys in Hk.
  rewrite length_app, !length_map in Hk. cbn in Hk. lia.
Qed.

Lemma keys_singleton k v : keys [(k, v)] = [k].
Proof.
  unfold keys, indicesFirst. cbn [ownKeys map fst List.filter].
  destruct (isArrayIndex k); reflexivity.
Qed.

Lemma keys_nil obj : keys obj = [] -> obj = [].
Proof.
  intros Hk. pose proof (length_keys obj) as Hlen. rewrite Hk in Hlen.
  destruct obj; [reflexivity | discriminate].
Qed.

(** Without array index among the names, [Object.keys] keeps the order
    of creation. *)
Lemma indicesFirst_plain (names : list string) :
  Forall (fun k => isArrayIndex k = false) names -> indicesFirst names = names.
Proof.
  unfold indicesFirst. induction 1 as [| k l Hk Hl IH]; [reflexivity |].
  cbn [List.filter]. rewrite Hk. cbn [negb]. cbn [List.filter] in IH.
  destruct (List.filter isArrayIndex l) as [| y ys] eqn:Hf.
  - cbn [fold_right app] in *. now rewrite IH.
  - exfalso. assert (Hy : In y (List.filter isArrayIndex l)) by (rewrite Hf; now left).
    apply filter_In in Hy as [Hy1 Hy2]. rewrite List.Forall_forall in Hl.
    rewrite (Hl y Hy1) in Hy2. discriminate.
Qed.

End WithValues.
End JsObjectFacts.

(** ** The unanchored search *)

Module RegExpFacts.
Import RegExp.

Lemma prefix_app (a rest : string) : String.prefix a (a +:+ rest) = true.
Proof.
  induction a as [| c a IH]; simpl.
  - now destruct rest.
  - destruct (ascii_dec c c); [assumption | congruence].
Qed.

Lemma search_cons (alts : list string) (c : ascii) (s : string) :
  search alts (String c s) = matchHere alts (String c s) || search alts s.
Proof. reflexivity. Qed.

Lemma matchHere_search (alts : list string) (s : string) :
  matchHere alts s = true -> search alts s = true.
Proof. intros Hm. destruct s; simpl in *; rewrite Hm; reflexivity. Qed.

Lemma search_skip (alts : list string) (c : ascii) (s : string) :
  search alts s = true -> search alts (String c s) = true.
Proof. intros Hs. cbn [search]. rewrite Hs. apply orb_true_r. Qed.

(** The text after the [@] only has to begin with a configured name;
    whatever follows is not looked at. *)
Lemma search_extension (alts : list string) (a rest : string) :
  In a alts -> search alts (String "@" (a +:+ rest)) = true.
Proof.
  intros Hin. apply matchHere_search. simpl.
  apply existsb_exists. exists a. split; [assumption | apply prefix_app].
Qed.

Lemma search_noAt (alts : list string) (s : string) :
  RegExp.noAt s = true -> search alts s = false.
Proof.
  induction s as [| c s IH]; simpl; [reflexivity |].
  intros Hn. apply andb_true_iff in Hn as [Hc Hs].
  rewrite (IH Hs), orb_false_r.
  unfold matchHere.
  destruct (Ascii.eqb_spec c "@") as [-> | Hne]; [discriminate |].
  destruct c as [[] [] [] [] [] [] [] []]; try reflexivity. congruence.
Qed.

Lemma noAt_uint (d : Decimal.uint) : noAt (NilEmpty.string_of_uint d) = true.
Proof. induction d; simpl; auto. Qed.

Lemma noAt_ofN (n : N) : noAt (Str.ofN n) = true.
Proof.
  unfold Str.ofN, NilZero.string_of_uint.
  destruct (N.to_uint n) eqn:E; try reflexivity; rewrite <- E; rewrite E;
    apply (noAt_uint (_ _)).
Qed.

End RegExpFacts.

(** ** Outcomes *)

Lemma bind_Ok_inv {A B : Type} (m : Result A) (k : A -> Result B) (b : B) :
  (x ← m; k x) = Ok b -> exists a, m = Ok a /\ k a = Ok b.
Proof. destruct m as [a |]; [eauto | discriminate]. Qed.

Tactic Notation "bind_inv" hyp(H) "as" ident(a) ident(Ha) :=
  apply bind_Ok_inv in H as (a & Ha & H).

Lemma mapM_Forall2 {A B : Type} (f : A -> Result B) (l : list A) (l' : list B) :
  mapM f l = Ok l' -> Forall2 (fun x y => f x = Ok y) l l'.
Proof.
  revert l'. induction l as [| x l IH]; simpl; intros l' Hm.
  - injection Hm as <-. constructor.
  - bind_inv Hm as y Hy. bind_inv Hm as ys Hys. injection Hm as <-. constructor; auto.
Qed.

(** ** Sorting with a comparator that may throw *)

Lemma insertM_Permutation {A : Type} (cmp : A -> A -> Result JsNumber) (x : A) (l l' : list A) :
  insertM cmp x l = Ok l' -> Permutation (x :: l) l'.
Proof.
  revert l'. induction l as [| y l IH]; simpl; intros l' Hi.
  - injection Hi as <-. reflexivity.
  - bind_inv Hi as c Hc. destruct (notAfter c).
    + injection Hi as <-. reflexivity.
    + bind_inv Hi as rest' Hrest. injection Hi as <-.
      rewrite perm_swap. constructor. now apply IH.
Qed.

Lemma sortM_Permutation {A : Type} (cmp : A -> A -> Result JsNumber) (l l' : list A) :
  sortM cmp l = Ok l' -> Permutation l l'.
Proof.
  revert l'. induction l as [| x l IH]; simpl; intros l' Hs.
  - injection Hs as <-. reflexivity.
  - bind_inv Hs as sorted Hsorted. rewrite (IH _ Hsorted).
    now apply insertM_Permutation in Hs.
Qed.

(** A comparator that throws on every pair aborts the sort of any array
    with two elements or more. *)
Lemma sortM_throws {A : Type} (cmp : A -> A -> Result JsNumber) (l : list A) :
  (forall a b, In a l -> In b l -> cmp a b = TypeError) ->
  (2 <= length l)%nat ->
  sortM cmp l = TypeError.
Proof.
  intros Hcmp Hlen.
  destruct l as [| x rest]; [simpl in Hlen; lia |].
  cbn [sortM]. destruct (sortM cmp rest) as [sorted |] eqn:Hs; [| reflexivity].
  apply sortM_Permutation in Hs.
  destruct sorted as [| y sorted'].
  - apply Permutation_length in Hs. simpl in *. lia.
  - cbn. rewrite Hcmp; [reflexivity | now left |].
    right. apply (Permutation_in y (Permutation_sym Hs)). now left.
Qed.

Lemma sortM_singleton {A : Type} (cmp : A -> A -> Result JsNumber) (x : A) :
  sortM cmp [x] = Ok [x].
Proof. reflexivity. Qed.

(** ** One filter pass over the shared items *)

Lemma evolves_refl (a : NavigationItem) : evolves a a.
Proof. unfold evolves, sameNode. repeat split; auto. Qed.

Lemma evolves_trans (a b c : NavigationItem) : evolves a b -> evolves b c -> evolves a c.
Proof.
  unfold evolves, sameNode.
  intros ((? & ? & ? & ? & ?) & ?) ((? & ? & ? & ? & ?) & ?).
  repeat split; try congruence; auto.
Qed.

Lemma evolves_verdict (d : TocGroupData) (gv : list string) (a b : NavigationItem) :
  evolves a b -> verdict d gv a = verdict d gv b.
Proof.
  unfold evolves, sameNode, verdict. intros ((Ht & _ & _ & Hr & _) & _).
  now rewrite Ht, Hr.
Qed.

Lemma evolves_flagged (d : TocGroupData) (a b : NavigationItem) :
  evolves a b -> flagged d a -> flagged d b.
Proof.
  unfold evolves, sameNode, flagged. intros ((Ht & _ & _ & Hr & _) & Hd) Hf r Hb Hp Hin.
  apply Hd, (Hf r); congruence.
Qed.

Lemma Forall2_evolves_refl (l : list NavigationItem) : Forall2 evolves l l.
Proof. induction l; constructor; auto using evolves_refl. Qed.

Lemma Forall2_evolves_trans (l1 l2 l3 : list NavigationItem) :
  Forall2 evolves l1 l2 -> Forall2 evolves l2 l3 -> Forall2 evolves l1 l3.
Proof.
  intros H12. revert l3. induction H12; intros l3 H23; inversion H23; subst;
    constructor; eauto using evolves_trans.
Qed.

Lemma Forall2_evolves_verdict (d : TocGroupData) (gv : list string)
    (l1 l2 : list NavigationItem) :
  Forall2 evolves l1 l2 -> map (verdict d gv) l2 = map (verdict d gv) l1.
Proof.
  induction 1; simpl; [reflexivity |].
  f_equal; [symmetry; now apply evolves_verdict | assumption].
Qed.

Lemma Forall2_evolves_flagged (d : TocGroupData) (l1 l2 : list NavigationItem) :
  Forall2 evolves l1 l2 -> Forall (flagged d) l1 -> Forall (flagged d) l2.
Proof.
  induction 1; intros Hf; inversion Hf; subst; constructor;
    eauto using evolves_flagged.
Qed.

(** The callback: its verdict is [verdict], it needs the item's
    reflection, and it leaves the item [flagged]. *)
Lemma groupFilter_Ok (d : TocGroupData) (key : string) (gv : list string)
    (item item' : NavigationItem) (b : bool) :
  groupFilter d key gv item = Ok (b, item') ->
  b = verdict d gv item /\ evolves item item' /\ flagged d item'.
Proof.
  unfold groupFilter, verdict, flagged. intros Hg.
  destruct (reflection item) as [r |] eqn:Hr; [| discriminate].
  cbn in Hg.
  destruct (RegExp.test (dataRegexp d) (kindProbe r)) eqn:Hp.
  - injection Hg as <- <-. split; [reflexivity |]. split; [apply evolves_refl |].
    intros r' Hr'. congruence.
  - destruct (bool_decide (title item ∈ deprecatedData d)) eqn:Hdep;
      destruct (Str.inArray (title item) gv); injection Hg as <- <-;
      (split; [reflexivity |]); (split; [unfold evolves, sameNode; simpl; auto 10 |]);
      simpl; intros r' _ _ Hin; auto;
      apply bool_decide_eq_false in Hdep; contradiction.
Qed.

Lemma filterShared_Ok (d : TocGroupData) (key : string) (gv : list string)
    (store store' : list NavigationItem) (kept : list bool) :
  filterShared (groupFilter d key gv) store = Ok (kept, store') ->
  kept = map (verdict d gv) store /\
  Forall2 evolves store store' /\
  Forall (flagged d) store'.
Proof.
  unfold filterShared. intros Hf. bind_inv Hf as rs Hrs. injection Hf as <- <-.
  apply mapM_Forall2 in Hrs.
  induction Hrs as [| x [b x'] l l' Hx Hl IH]; simpl.
  - repeat split; constructor.
  - apply groupFilter_Ok in Hx as (-> & He & Hfl).
    destruct IH as (-> & IH2 & IH3). repeat split; constructor; auto.
Qed.

(** ** The groups built by [mapKeys] *)

Lemma mapKeys_Ok (d : TocGroupData) (keys : list string)
    (store store' : list NavigationItem) (groups : list (string * list bool)) :
  mapKeys d keys store = Ok (groups, store') ->
  Forall2 (groupOf d store) keys groups /\
  Forall2 evolves store store' /\
  (keys <> [] -> Forall (flagged d) store').
Proof.
  revert store groups. induction keys as [| key rest IH]; simpl; intros store groups Hm.
  - injection Hm as <- <-. repeat split; [constructor | apply Forall2_evolves_refl | congruence].
  - bind_inv Hm as gv Hgv.
    destruct (JsObject.get (mapedTocData d) key) eqn:Hget; [| discriminate].
    injection Hgv as ->.
    bind_inv Hm as r1 Hr1. destruct r1 as [kept store1].
    bind_inv Hm as r2 Hr2. destruct r2 as [groups' store2].
    injection Hm as <- <-. simpl in *.
    apply filterShared_Ok in Hr1 as (-> & He1 & Hf1).
    apply IH in Hr2 as (Hg & He2 & _).
    split; [| split].
    + constructor.
      * split; [reflexivity |]. exists gv. auto.
      * eapply Forall2_impl; [exact Hg |].
        intros k g (Hk & gv' & Hget' & Hs). split; [assumption |].
        exists gv'. split; [assumption |].
        rewrite Hs. now apply Forall2_evolves_verdict.
    + eapply Forall2_evolves_trans; eauto.
    + intros _. eapply Forall2_evolves_flagged; eauto.
Qed.

(** The items a verdict list selects from the final state of the store. *)
Lemma select_In (f : NavigationItem -> bool) (store store' : list NavigationItem)
    (c : NavigationItem) :
  Forall2 evolves store store' ->
  In c (select (map f store) store') ->
  exists x, In x store /\ evolves x c /\ f x = true /\ In c store'.
Proof.
  unfold select. induction 1 as [| x x' l l' Hx Hl IH]; simpl; [tauto |].
  destruct (f x) eqn:Hfx; simpl.
  - intros [<- | Hin].
    + exists x. auto.
    + destruct (IH Hin) as (y & ? & ? & ? & ?). exists y. auto.
  - intros Hin. destruct (IH Hin) as (y & ? & ? & ? & ?). exists y. auto.
Qed.

Lemma In_select (f : NavigationItem -> bool) (store store' : list NavigationItem)
    (x : NavigationItem) :
  Forall2 evolves store store' ->
  In x store -> f x = true ->
  exists c, In c (select (map f store) store') /\ evolves x c.
Proof.
  unfold select. induction 1 as [| y y' l l' Hy Hl IH]; simpl; [tauto |].
  intros [-> | Hin] Hfx.
  - rewrite Hfx. simpl. eauto.
  - destruct (IH Hin Hfx) as (c & Hc & He). exists c.
    destruct (f y); simpl; auto.
Qed.

Lemma Forall2_In_left {A B : Type} (R : A -> B -> Prop) (l : list A) (l' : list B) (x : A) :
  Forall2 R l l' -> In x l -> exists y, In y l' /\ R x y.
Proof.
  induction 1 as [| a b l l' Hab Hl IH]; simpl; [tauto |].
  intros [<- | Hin]; [eauto |]. destruct (IH Hin) as (y & ? & ?). eauto.
Qed.

Lemma Forall2_In_right {A B : Type} (R : A -> B -> Prop) (l : list A) (l' : list B) (y : B) :
  Forall2 R l l' -> In y l' -> exists x, In x l /\ R x y.
Proof.
  induction 1 as [| a b l l' Hab Hl IH]; simpl; [tauto |].
  intros [<- | Hin]; [eauto |]. destruct (IH Hin) as (x & ? & ?). eauto.
Qed.

(** ** The regrouped tree *)

Lemma regroup_Ok (d : TocGroupData) (toc toc' : NavigationItem) :
  mapedTocData d <> [] ->
  regroup d toc = Ok toc' ->
  exists items store' groups roots,
    children toc = Some items /\
    mapKeys d (JsObject.keys (mapedTocData d)) items = Ok (groups, store') /\
    Permutation (map (groupRoot d store') groups) roots /\
    toc' = setChildren toc (Some roots).
Proof.
  intros Hne Hr. unfold regroup in Hr.
  bind_inv Hr as items Hitems. bind_inv Hr as r Hmap. bind_inv Hr as updatedToc Hsort.
  destruct r as [groups store']. simpl in *.
  destruct (children toc) as [items0 |] eqn:Hch; [| discriminate].
  injection Hitems as ->.
  apply sortM_Permutation in Hsort.
  exists items, store', groups, updatedToc.
  destruct (Nat.eqb_spec (length updatedToc) 0) as [Hlen | Hlen].
  - exfalso. apply Hne, JsObjectFacts.keys_nil.
    apply mapKeys_Ok in Hmap as (Hg & _ & _).
    apply Forall2_length in Hg. apply Permutation_length in Hsort.
    rewrite length_map in Hsort.
    destruct (JsObject.keys (mapedTocData d)); [reflexivity | simpl in *; lia].
  - injection Hr as <-. auto.
Qed.

(** Every node of the new top level is a group node whose children are
    the items its pass accepted, and every group key has its node. *)
Lemma regroup_groups (d : TocGroupData) (toc toc' : NavigationItem) :
  mapedTocData d <> [] ->
  regroup d toc = Ok toc' ->
  exists items roots,
    children toc = Some items /\ children toc' = Some roots /\
    (forall root, In root roots ->
       exists key gv,
         isGroupNode d root key /\
         JsObject.get (mapedTocData d) key = Some gv /\
         forall c, In c (childList root) ->
           flagged d c /\
           exists x, In x items /\ evolves x c /\ verdict d gv x = true) /\
    (forall key gv, JsObject.get (mapedTocData d) key = Some gv ->
       exists root,
         In root roots /\ isGroupNode d root key /\
         forall x, In x items -> verdict d gv x = true ->
           exists c, In c (childList root) /\ evolves x c /\ flagged d c).
Proof.
  intros Hne Hr.
  destruct (regroup_Ok d toc toc' Hne Hr)
    as (items & store' & groups & roots & Hch & Hmap & Hperm & ->).
  apply mapKeys_Ok in Hmap as (Hg & He & Hfl).
  assert (Hfl' : Forall (flagged d) store').
  { apply Hfl. intros Hk. apply Hne. now apply JsObjectFacts.keys_nil. }
  rewrite List.Forall_forall in Hfl'.
  exists items, roots. split; [assumption |]. split; [reflexivity |]. split.
  - intros root Hroot.
    apply (Permutation_in _ (Permutation_sym Hperm)) in Hroot.
    apply in_map_iff in Hroot as (g & <- & Hgin).
    destruct (Forall2_In_right _ _ _ _ Hg Hgin) as (key & Hkin & Hkey & gv & Hget & Hs).
    exists key, gv. split; [| split; [assumption |]].
    + unfold isGroupNode. simpl. rewrite Hkey. auto.
    + unfold childList. simpl. rewrite Hs. intros c Hc.
      destruct (select_In _ _ _ _ He Hc) as (x & Hx & Hxc & Hv & Hc').
      split; [now apply Hfl' | eauto].
  - intros key gv Hget.
    pose proof (JsObjectFacts.get_Some_keys _ _ _ Hget) as Hkin.
    destruct (Forall2_In_left _ _ _ _ Hg Hkin) as (g & Hgin & Hkey & gv' & Hget' & Hs).
    assert (gv' = gv) as -> by congruence.
    exists (groupRoot d store' g). split; [| split].
    + apply (Permutation_in _ Hperm). now apply in_map.
    + unfold isGroupNode. simpl. rewrite Hkey. auto.
    + unfold childList. simpl. rewrite Hs. intros x Hx Hv.
      destruct (In_select _ _ _ _ He Hx Hv) as (c & Hc & Hxc).
      exists c. split; [assumption |]. split; [assumption |].
      destruct (select_In _ _ _ _ He Hc) as (_ & _ & _ & _ & Hc'). now apply Hfl'.
Qed.

(** ** The block that records the ungrouped titles *)

Lemma defaultGroups_spec (d : TocGroupData) (items : list NavigationItem) (n : string) :
  In n (defaultGroups d items) <->
  ~ In n (groupedData d) /\ exists item, In item items /\ title item = n.
Proof.
  unfold defaultGroups. rewrite in_map_iff. split.
  - intros (item & <- & Hin). apply filter_In in Hin as (Hin & Hb).
    apply negb_true_iff, inArray_not_In in Hb. eauto.
  - intros (Hn & item & Hin & <-). exists item. split; [reflexivity |].
    apply filter_In. split; [assumption |].
    now apply negb_true_iff, inArray_not_In.
Qed.

Lemma setUngrouped_Ok (d d1 : TocGroupData) (toc : NavigationItem) :
  setUngrouped d toc = Ok d1 ->
  d1 = d \/
  (JsObject.get (mapedTocData d) DEFAULT_UNGROUPED_NAME = None /\
   exists items,
     children toc = Some items /\ defaultGroups d items <> [] /\
     d1 = setMaped d (JsObject.set (mapedTocData d) DEFAULT_UNGROUPED_NAME
                        (defaultGroups d items))).
Proof.
  unfold setUngrouped.
  destruct (JsObject.get (mapedTocData d) DEFAULT_UNGROUPED_NAME) eqn:Hget.
  - intros [= <-]. now left.
  - intros Hs. bind_inv Hs as items Hitems.
    destruct (children toc) as [items0 |]; [| discriminate]. injection Hitems as ->.
    destruct (defaultGroups d items) as [| n others] eqn:Hdg; simpl in Hs.
    + injection Hs as <-. now left.
    + injection Hs as <-. right. split; [reflexivity |].
      exists items. rewrite Hdg. repeat split. discriminate.
Qed.

(** Once the key is present, the block does nothing. *)
Lemma setUngrouped_present (d : TocGroupData) (toc : NavigationItem) (l : list string) :
  JsObject.get (mapedTocData d) DEFAULT_UNGROUPED_NAME = Some l ->
  setUngrouped d toc = Ok d.
Proof. unfold setUngrouped. now intros ->. Qed.

Lemma setUngrouped_idempotent (d d1 : TocGroupData) (toc : NavigationItem) :
  setUngrouped d toc = Ok d1 -> setUngrouped d1 toc = Ok d1.
Proof.
  intros Hs. destruct (setUngrouped_Ok _ _ _ Hs) as [-> | (Hget & items & Hch & Hne & ->)].
  - assumption.
  - apply (setUngrouped_present _ _ (defaultGroups d items)). simpl.
    apply JsObjectFacts.get_set_same.
Qed.

Lemma setUngrouped_nonempty (d d1 : TocGroupData) (toc : NavigationItem) :
  setUngrouped d toc = Ok d1 -> mapedTocData d <> [] -> mapedTocData d1 <> [].
Proof.
  intros Hs Hne. destruct (setUngrouped_Ok _ _ _ Hs) as [-> | (Hget & items & Hch & Hdg & ->)].
  - assumption.
  - simpl. destruct (mapedTocData d) as [| [k v] rest]; [congruence |].
    simpl. destruct (String.eqb k DEFAULT_UNGROUPED_NAME); discriminate.
Qed.

Lemma buildGroupTocContent_empty (d : TocGroupData) (toc : NavigationItem) :
  mapedTocData d = [] -> buildGroupTocContent d toc = (d, Ok toc).
Proof. unfold buildGroupTocContent. now intros ->. Qed.

Lemma buildGroupTocContent_nonempty (d : TocGroupData) (toc : NavigationItem) :
  mapedTocData d <> [] ->
  buildGroupTocContent d toc =
    match setUngrouped d toc with
    | TypeError => (d, TypeError)
    | Ok d1 => (d1, regroup d1 toc)
    end.
Proof.
  unfold buildGroupTocContent. intros Hne.
  rewrite JsObjectFacts.length_keys.
  destruct (mapedTocData d); [congruence | reflexivity].
Qed.

(** ** The scan of the indexer *)

(** A push either throws, on an inherited name that is not an own
    property, or leaves the object [pushed]. *)
Lemma pushTo_Ok (m m' : JsObject.t (list string)) (key x : string) :
  pushTo m key x = Ok m' -> m' = pushed m key x.
Proof.
  unfold pushTo, pushed. destruct (JsObject.get m key); [now intros [= <-] |].
  destruct (JsObject.inherits key); [discriminate | now intros [= <-]].
Qed.

Lemma pushTo_TypeError (m : JsObject.t (list string)) (key x : string) :
  pushTo m key x = TypeError <->
  JsObject.get m key = None /\ JsObject.inherits key = true.
Proof.
  unfold pushTo. destruct (JsObject.get m key); [split; [discriminate | intros [? _]; discriminate] |].
  destruct (JsObject.inherits key); split; auto; try discriminate. intros [_ ?]. discriminate.
Qed.

Lemma pushTo_runs (m : JsObject.t (list string)) (key x : string) :
  JsObject.inherits key = false -> pushTo m key x = Ok (pushed m key x).
Proof.
  unfold pushTo, pushed. intros ->. now destruct (JsObject.get m key).
Qed.

Lemma scanTags_Ok (re : RegExp.t) (n : string) (tags : list CommentTag) (st st' : Scan) :
  scanTags re n tags st = Ok st' -> st' = tagsOutcome re n tags st.
Proof.
  revert st. induction tags as [| tag rest IH]; intros st; cbn [scanTags tagsOutcome].
  - now intros [= <-].
  - destruct (matchesTag re tag); [| apply IH].
    cbv zeta. intros Hs. bind_inv Hs as maped Hm. apply pushTo_Ok in Hm as ->.
    now injection Hs as <-.
Qed.

Lemma scanReflection_Ok (re : RegExp.t) (st st' : Scan) (ref : Reflection) :
  scanReflection re st ref = Ok st' -> st' = reflectionOutcome re st ref.
Proof.
  unfold scanReflection, reflectionOutcome.
  destruct (comment ref) as [[[ts |]] |]; cbn; try (now intros [= <-]).
  apply scanTags_Ok.
Qed.

Lemma foldM_scan_Ok (re : RegExp.t) (refs : list Reflection) (st st' : Scan) :
  foldM (scanReflection re) refs st = Ok st' ->
  st' = fold_left (reflectionOutcome re) refs st.
Proof.
  revert st. induction refs as [| ref refs IH]; intros st; cbn [foldM fold_left].
  - now intros [= <-].
  - intros Hf. bind_inv Hf as st1 Hst1. apply scanReflection_Ok in Hst1 as ->.
    now apply IH.
Qed.

(** The record of a scan that ends is the record of its outcome. *)
Lemma onBeginResolve_Ok (this : TocGroupPlugin) (options : Options) (project : Project)
    (d : TocGroupData) :
  onBeginResolve this options project = Ok d ->
  d = recordOf this options project
        (fold_left (reflectionOutcome (regexp this)) (reflections project) emptyScan).
Proof.
  unfold onBeginResolve. intros Hr. bind_inv Hr as st Hst.
  apply foldM_scan_Ok in Hst as ->. now injection Hr as <-.
Qed.

(** When the scan throws: on the first grouping tag whose key is an
    inherited name.  Such a name never becomes an own property. *)
Lemma scanTags_TypeError (re : RegExp.t) (n : string) (ts : list CommentTag) (st : Scan) :
  scanTags re n ts st = TypeError <->
  exists t, List.find (matchesTag re) ts = Some t /\
    JsObject.get (scanMaped st) (Str.firstLine (text t)) = None /\
    JsObject.inherits (Str.firstLine (text t)) = true.
Proof.
  revert st. induction ts as [| u ts IH]; intros st; cbn [scanTags List.find].
  - split; [discriminate | intros (t & Ht & _); discriminate].
  - destruct (matchesTag re u) eqn:Hu.
    + cbv zeta. split.
      * intros Hs. exists u. split; [reflexivity |]. apply (pushTo_TypeError _ _ n).
        destruct (pushTo (scanMaped st) (Str.firstLine (text u)) n);
          [cbn in Hs; discriminate | reflexivity].
      * intros (t & [= <-] & Hget & Hin).
        now rewrite (proj2 (pushTo_TypeError _ _ n) (conj Hget Hin)).
    + rewrite IH. reflexivity.
Qed.

Lemma scanReflection_TypeError (re : RegExp.t) (st : Scan) (ref : Reflection) :
  scanReflection re st ref = TypeError <->
  exists t, firstGroupingTag re ref = Some t /\
    JsObject.get (scanMaped st) (Str.firstLine (text t)) = None /\
    JsObject.inherits (Str.firstLine (text t)) = true.
Proof.
  unfold scanReflection, firstGroupingTag, tagsOf.
  destruct (comment ref) as [[[ts |]] |]; cbn [tags];
    try (split; [discriminate | intros (t & Ht & _); discriminate]).
  apply scanTags_TypeError.
Qed.

Lemma ownNamesPlain_empty : ownNamesPlain (scanMaped emptyScan).
Proof. intros k l Hget. discriminate. Qed.

Lemma pushTo_ownNamesPlain (m m' : JsObject.t (list string)) (key x : string) :
  pushTo m key x = Ok m' -> ownNamesPlain m -> ownNamesPlain m'.
Proof.
  unfold pushTo, ownNamesPlain. intros Hp Hm k l.
  destruct (JsObject.get m key) as [l0 |] eqn:Hget.
  - injection Hp as <-. rewrite JsObjectFacts.get_set.
    destruct (String.eqb_spec key k) as [<- | _]; [intros _; eauto | apply Hm].
  - destruct (JsObject.inherits key) eqn:Hi; [discriminate |]. injection Hp as <-.
    rewrite JsObjectFacts.get_set.
    destruct (String.eqb_spec key k) as [<- | _]; [now intros _ | apply Hm].
Qed.

Lemma scanTags_ownNamesPlain (re : RegExp.t) (n : string) (ts : list CommentTag)
    (st st' : Scan) :
  scanTags re n ts st = Ok st' ->
  ownNamesPlain (scanMaped st) -> ownNamesPlain (scanMaped st').
Proof.
  revert st. induction ts as [| u ts IH]; intros st; cbn [scanTags].
  - now intros [= <-].
  - destruct (matchesTag re u).
    + cbv zeta. intros Hs Hm. bind_inv Hs as maped Hp. injection Hs as <-.
      cbn [scanMaped]. eapply pushTo_ownNamesPlain; eauto.
    + intros Hs Hm. apply (IH _ Hs). exact Hm.
Qed.

Lemma scanReflection_ownNamesPlain (re : RegExp.t) (st st' : Scan) (ref : Reflection) :
  scanReflection re st ref = Ok st' ->
  ownNamesPlain (scanMaped st) -> ownNamesPlain (scanMaped st').
Proof.
  unfold scanReflection.
  destruct (comment ref) as [[[ts |]] |]; cbn [tags]; try (now intros [= <-]).
  apply scanTags_ownNamesPlain.
Qed.

Lemma foldM_scan_TypeError (re : RegExp.t) (refs : list Reflection) (st : Scan) :
  ownNamesPlain (scanMaped st) ->
  (foldM (scanReflection re) refs st = TypeError <->
   exists ref t,
     In ref refs /\ firstGroupingTag re ref = Some t /\
     JsObject.inherits (Str.firstLine (text t)) = true).
Proof.
  revert st. induction refs as [| ref refs IH]; intros st Hm; cbn [foldM].
  - split; [discriminate | intros (r & t & [] & _)].
  - destruct (scanReflection re st ref) as [st1 |] eqn:Hs; cbn.
    + rewrite (IH st1 (scanReflection_ownNamesPlain _ _ _ _ Hs Hm)). split.
      * intros (r & t & Hin & H). exists r, t. split; [now right | exact H].
      * intros (r & t & [<- | Hin] & Ht & Hi); [| eauto].
        exfalso. assert (Hthrow : scanReflection re st ref = TypeError); [| congruence].
        apply scanReflection_TypeError. exists t. split; [assumption |].
        split; [| assumption].
        destruct (JsObject.get (scanMaped st) (Str.firstLine (text t))) eqn:Hg;
          [| reflexivity].
        exfalso. apply Hm in Hg. congruence.
    + split; [intros _ | reflexivity].
      apply scanReflection_TypeError in Hs as (t & Ht & _ & Hi).
      exists ref, t. split; [now left | auto].
Qed.

Lemma onBeginResolve_TypeError (this : TocGroupPlugin) (options : Options)
    (project : Project) :
  onBeginResolve this options project = TypeError <->
  exists ref t,
    In ref (reflections project) /\ firstGroupingTag (regexp this) ref = Some t /\
    JsObject.inherits (Str.firstLine (text t)) = true.
Proof.
  rewrite <- (foldM_scan_TypeError _ _ emptyScan ownNamesPlain_empty).
  unfold onBeginResolve.
  destruct (foldM _ _ _); cbn; split; congruence.
Qed.

(** The scan returns when no group key is an inherited name. *)
Lemma onBeginResolve_returns (this : TocGroupPlugin) (options : Options)
    (project : Project) :
  (forall ref t,
     In ref (reflections project) -> firstGroupingTag (regexp this) ref = Some t ->
     JsObject.inherits (Str.firstLine (text t)) = false) ->
  exists d, onBeginResolve this options project = Ok d.
Proof.
  intros Hplain. destruct (onBeginResolve this options project) as [d |] eqn:Hr; [eauto |].
  apply onBeginResolve_TypeError in Hr as (ref & t & Hin & Ht & Hi).
  rewrite (Hplain ref t Hin Ht) in Hi. discriminate.
Qed.

Lemma isFirstLine_spec (key text : string) :
  isFirstLine key text = true <-> Str.firstLine text = key.
Proof.
  revert text. induction key as [| k key IH]; intros [| c text];
    cbn [isFirstLine Str.firstLine]; unfold Str.isLineBreak.
  - tauto.
  - destruct (Ascii.eqb c "010" || Ascii.eqb c "013"); split; congruence.
  - split; discriminate.
  - destruct (Ascii.eqb c "010" || Ascii.eqb c "013"); cbn [negb].
    + rewrite andb_false_r. split; discriminate.
    + rewrite andb_true_r. rewrite andb_true_iff, IH. split.
      * intros [Hk ->]. apply Ascii.eqb_eq in Hk. now subst.
      * intros [= <- <-]. split; [apply Ascii.eqb_refl | reflexivity].
Qed.

Lemma matchesTag_deprecated (tag : CommentTag) :
  matchesTag DEPRECATED_REGEXP tag = true <-> tagName tag = "deprecated".
Proof.
  unfold matchesTag, DEPRECATED_REGEXP. simpl. rewrite String.eqb_eq.
  split; [intros [= ->] | intros ->]; reflexivity.
Qed.

Lemma get_pushed (m : JsObject.t (list string)) (key x k : string) :
  JsObject.get (pushed m key x) k =
    if String.eqb key k then Some (default [] (JsObject.get m key) ++ [x])
    else JsObject.get m k.
Proof.
  unfold pushed. destruct (JsObject.get m key) eqn:Hget;
    rewrite JsObjectFacts.get_set; reflexivity.
Qed.

Lemma groupedIsUnion_push (grouped : list string) (m : JsObject.t (list string))
    (key x : string) :
  groupedIsUnion grouped m -> groupedIsUnion (grouped ++ [x]) (pushed m key x).
Proof.
  unfold groupedIsUnion. intros Hu n. rewrite in_app_iff, Hu. split.
  - intros [(k & l & Hget & Hin) | [<- | []]].
    + destruct (String.eqb_spec key k) as [-> | Hne].
      * exists k, (l ++ [x]). rewrite get_pushed, String.eqb_refl, Hget.
        split; [reflexivity | apply in_app_iff; auto].
      * exists k, l. rewrite get_pushed.
        destruct (String.eqb_spec key k); [congruence | auto].
    + exists key, (default [] (JsObject.get m key) ++ [x]).
      rewrite get_pushed, String.eqb_refl.
      split; [reflexivity | apply in_app_iff; simpl; auto].
  - intros (k & l & Hget & Hin). rewrite get_pushed in Hget.
    destruct (String.eqb_spec key k) as [-> | Hne].
    + injection Hget as <-. apply in_app_iff in Hin as [Hin | Hin].
      * left. destruct (JsObject.get m k) as [l0 |] eqn:Hl0; [| destruct Hin]. eauto.
      * now right.
    + eauto.
Qed.

(** The deprecated names after the visit of one tag. *)
Lemma elem_of_deprecated_step (x n : string) (u : CommentTag) (dep : gset string) :
  x ∈ (if matchesTag DEPRECATED_REGEXP u then {[n]} ∪ dep else dep) <->
  x ∈ dep \/ (x = n /\ tagName u = "deprecated").
Proof.
  destruct (matchesTag DEPRECATED_REGEXP u) eqn:Hdep.
  - apply matchesTag_deprecated in Hdep.
    rewrite elem_of_union, elem_of_singleton. tauto.
  - assert (tagName u <> "deprecated").
    { intros Hn. apply matchesTag_deprecated in Hn. congruence. }
    tauto.
Qed.

(** The tags before the first grouping tag only add to the deprecated
    names; the first grouping tag records the membership and ends the
    loop, whatever follows it. *)
Lemma tagsOutcome_no_match (re : RegExp.t) (n : string) (tags : list CommentTag) (st : Scan) :
  Forall (fun u => matchesTag re u = false) tags ->
  let st' := tagsOutcome re n tags st in
  scanGrouped st' = scanGrouped st /\
  scanMaped st' = scanMaped st /\
  (forall x, x ∈ scanDeprecated st' <->
     x ∈ scanDeprecated st \/ (x = n /\ exists u, In u tags /\ tagName u = "deprecated")).
Proof.
  intros Hno. revert st. induction Hno as [| u tags Hu Hno IH]; intros st; cbn [tagsOutcome].
  - split; [reflexivity |]. split; [reflexivity |]. intros x. split; [tauto |].
    intros [Hx | (_ & u & [] & _)]. exact Hx.
  - rewrite Hu. cbv zeta.
    match goal with |- context [tagsOutcome re n tags ?s] => specialize (IH s) end.
    cbv zeta in IH. destruct IH as (-> & -> & Hd). cbn [scanGrouped scanMaped scanDeprecated] in *.
    split; [reflexivity |]. split; [reflexivity |]. intros x.
    rewrite Hd, elem_of_deprecated_step. split.
    + intros [[Hx | (-> & Hu')] | (-> & u' & Hin & Hu')]; eauto 8 using in_eq, in_cons.
    + intros [Hx | (-> & u' & [<- | Hin] & Hu')]; eauto 8.
Qed.

Lemma tagsOutcome_first_match (re : RegExp.t) (n : string) (pre post : list CommentTag)
    (t : CommentTag) (st : Scan) :
  Forall (fun u => matchesTag re u = false) pre ->
  matchesTag re t = true ->
  let st' := tagsOutcome re n (pre ++ t :: post) st in
  scanGrouped st' = scanGrouped st ++ [n] /\
  scanMaped st' = pushed (scanMaped st) (Str.firstLine (text t)) n /\
  (forall x, x ∈ scanDeprecated st' <->
     x ∈ scanDeprecated st \/
     (x = n /\ exists u, In u (pre ++ [t]) /\ tagName u = "deprecated")).
Proof.
  intros Hno Ht. revert st.
  induction Hno as [| u pre Hu Hno IH]; intros st; cbn [tagsOutcome app].
  - rewrite Ht. cbn [scanGrouped scanMaped scanDeprecated].
    split; [reflexivity |]. split; [reflexivity |]. intros x.
    rewrite elem_of_deprecated_step. split.
    + intros [Hx | (-> & Ht')]; eauto 8 using in_eq.
    + intros [Hx | (-> & u & [<- | []] & Hu)]; eauto.
  - rewrite Hu. cbv zeta.
    match goal with |- context [tagsOutcome re n _ ?s] => specialize (IH s) end.
    cbv zeta in IH. destruct IH as (-> & -> & Hd). cbn [scanGrouped scanMaped scanDeprecated] in *.
    split; [reflexivity |]. split; [reflexivity |]. intros x.
    rewrite Hd, elem_of_deprecated_step. split.
    + intros [[Hx | (-> & Hu')] | (-> & u' & Hin & Hu')]; eauto 8 using in_eq, in_cons.
    + intros [Hx | (-> & u' & [<- | Hin] & Hu')]; eauto 8.
Qed.

(** Any tag list either has no grouping tag or splits at its first one. *)
Lemma first_match_split (re : RegExp.t) (tags : list CommentTag) :
  Forall (fun u => matchesTag re u = false) tags \/
  exists pre t post,
    tags = pre ++ t :: post /\
    Forall (fun u => matchesTag re u = false) pre /\
    matchesTag re t = true.
Proof.
  induction tags as [| u tags IH]; [left; constructor |].
  destruct (matchesTag re u) eqn:Hu.
  - right. exists [], u, tags. repeat split; [constructor | assumption].
  - destruct IH as [Hno | (pre & t & post & -> & Hpre & Ht)].
    + left. now constructor.
    + right. exists (u :: pre), t, post. repeat split; [now constructor | assumption].
Qed.

Lemma scanGrows_refl (st : Scan) : scanGrows st st.
Proof. split; eauto. Qed.

Lemma scanGrows_trans (st1 st2 st3 : Scan) :
  scanGrows st1 st2 -> scanGrows st2 st3 -> scanGrows st1 st3.
Proof.
  intros [Hd1 Hm1] [Hd2 Hm2]. split; [auto |].
  intros k l x Hget Hin. destruct (Hm1 _ _ _ Hget Hin) as (l' & Hget' & Hin'). eauto.
Qed.

Lemma pushed_grows (m : JsObject.t (list string)) (key n k x : string) (l : list string) :
  JsObject.get m k = Some l -> In x l ->
  exists l', JsObject.get (pushed m key n) k = Some l' /\ In x l'.
Proof.
  intros Hget Hin. rewrite get_pushed.
  destruct (String.eqb_spec key k) as [-> | Hne]; [| eauto].
  rewrite Hget. simpl. exists (l ++ [n]). split; [reflexivity | apply in_app_iff; auto].
Qed.

Lemma tagsOutcome_grows (re : RegExp.t) (n : string) (tags : list CommentTag) (st : Scan) :
  scanGrows st (tagsOutcome re n tags st).
Proof.
  destruct (first_match_split re tags) as [Hno | (pre & t & post & -> & Hpre & Ht)].
  - destruct (tagsOutcome_no_match re n tags st Hno) as (_ & Hm & Hd).
    split; [intros x Hx; apply Hd; auto |]. rewrite Hm. eauto.
  - destruct (tagsOutcome_first_match re n pre post t st Hpre Ht) as (_ & Hm & Hd).
    split; [intros x Hx; apply Hd; auto |]. rewrite Hm.
    intros k l x. apply pushed_grows.
Qed.

Lemma tagsOutcome_groupedIsUnion (re : RegExp.t) (n : string) (tags : list CommentTag)
    (st : Scan) :
  groupedIsUnion (scanGrouped st) (scanMaped st) ->
  groupedIsUnion (scanGrouped (tagsOutcome re n tags st)) (scanMaped (tagsOutcome re n tags st)).
Proof.
  intros Hu.
  destruct (first_match_split re tags) as [Hno | (pre & t & post & -> & Hpre & Ht)].
  - destruct (tagsOutcome_no_match re n tags st Hno) as (-> & -> & _). assumption.
  - destruct (tagsOutcome_first_match re n pre post t st Hpre Ht) as (-> & -> & _).
    now apply groupedIsUnion_push.
Qed.

Lemma reflectionOutcome_grows (re : RegExp.t) (st : Scan) (ref : Reflection) :
  scanGrows st (reflectionOutcome re st ref).
Proof.
  unfold reflectionOutcome. destruct (comment ref) as [[[ts |]] |]; simpl;
    auto using scanGrows_refl, tagsOutcome_grows.
Qed.

Lemma reflectionOutcome_groupedIsUnion (re : RegExp.t) (st : Scan) (ref : Reflection) :
  groupedIsUnion (scanGrouped st) (scanMaped st) ->
  groupedIsUnion (scanGrouped (reflectionOutcome re st ref))
                 (scanMaped (reflectionOutcome re st ref)).
Proof.
  unfold reflectionOutcome. destruct (comment ref) as [[[ts |]] |]; simpl;
    auto using tagsOutcome_groupedIsUnion.
Qed.

Lemma fold_scan_grows (re : RegExp.t) (refs : list Reflection) (st : Scan) :
  scanGrows st (fold_left (reflectionOutcome re) refs st).
Proof.
  revert st. induction refs as [| ref refs IH]; intros st; simpl.
  - apply scanGrows_refl.
  - eapply scanGrows_trans; [apply reflectionOutcome_grows | apply IH].
Qed.

Lemma fold_scan_groupedIsUnion (re : RegExp.t) (refs : list Reflection) (st : Scan) :
  groupedIsUnion (scanGrouped st) (scanMaped st) ->
  let st' := fold_left (reflectionOutcome re) refs st in
  groupedIsUnion (scanGrouped st') (scanMaped st').
Proof.
  revert st. induction refs as [| ref refs IH]; intros st Hu; simpl.
  - assumption.
  - apply IH. now apply reflectionOutcome_groupedIsUnion.
Qed.

(** The indexer leaves [groupedData] equal to the union of the lists. *)
Lemma onBeginResolve_groupedIsUnion (this : TocGroupPlugin) (options : Options)
    (project : Project) (d : TocGroupData) :
  onBeginResolve this options project = Ok d ->
  groupedIsUnion (groupedData d) (mapedTocData d).
Proof.
  intros Hd. apply onBeginResolve_Ok in Hd as ->. cbn [recordOf groupedData mapedTocData].
  apply fold_scan_groupedIsUnion. intros n. simpl. split; [tauto |].
  intros (k & l & Hget & _). discriminate.
Qed.

Lemma reflectionOutcome_tags (re : RegExp.t) (st : Scan) (ref : Reflection)
    (ts : list CommentTag) :
  comment ref = Some (mkComment (Some ts)) ->
  reflectionOutcome re st ref = tagsOutcome re (name ref) ts st.
Proof. unfold reflectionOutcome. now intros ->. Qed.

(** A reflection whose first grouping tag is [t] is a member of the group
    keyed by the first line of [t]; a deprecation tag at or before [t]
    makes its name a deprecated name. *)
Lemma onBeginResolve_member (this : TocGroupPlugin) (options : Options)
    (project : Project) (d : TocGroupData) (ref : Reflection)
    (pre post : list CommentTag) (t : CommentTag) :
  onBeginResolve this options project = Ok d ->
  In ref (reflections project) ->
  comment ref = Some (mkComment (Some (pre ++ t :: post))) ->
  Forall (fun u => matchesTag (regexp this) u = false) pre ->
  matchesTag (regexp this) t = true ->
  (exists l, JsObject.get (mapedTocData d) (Str.firstLine (text t)) = Some l /\
             In (name ref) l) /\
  ((exists u, In u (pre ++ [t]) /\ tagName u = "deprecated") ->
   name ref ∈ deprecatedData d).
Proof.
  intros Hd Hin Hc Hpre Ht. apply onBeginResolve_Ok in Hd as ->.
  cbn [recordOf mapedTocData deprecatedData].
  apply in_split in Hin as (before & after & ->).
  rewrite fold_left_app. simpl.
  set (st0 := fold_left (reflectionOutcome (regexp this)) before emptyScan).
  rewrite (reflectionOutcome_tags _ _ _ _ Hc).
  destruct (fold_scan_grows (regexp this) after
              (tagsOutcome (regexp this) (name ref) (pre ++ t :: post) st0)) as [Hd Hm].
  destruct (tagsOutcome_first_match (regexp this) (name ref) pre post t st0 Hpre Ht)
    as (_ & Hmaped & Hdep).
  split.
  - apply (Hm _ (default [] (JsObject.get (scanMaped st0) (Str.firstLine (text t)))
                  ++ [name ref])).
    + rewrite Hmaped, get_pushed, String.eqb_refl. reflexivity.
    + apply in_app_iff. simpl. auto.
  - intros Hu. apply Hd, Hdep. auto.
Qed.

(** ** [buildGroupTocContent] as a whole *)

(** The ungrouped block writes to [mapedTocData] only, and only adds a key. *)
Lemma setUngrouped_frame (d d1 : TocGroupData) (toc : NavigationItem) :
  setUngrouped d toc = Ok d1 ->
  groupedData d1 = groupedData d /\
  deprecatedData d1 = deprecatedData d /\
  homePath d1 = homePath d /\
  dataRegexp d1 = dataRegexp d /\
  dataSortOrder d1 = dataSortOrder d /\
  (forall k l, JsObject.get (mapedTocData d) k = Some l ->
               JsObject.get (mapedTocData d1) k = Some l).
Proof.
  intros Hs. destruct (setUngrouped_Ok _ _ _ Hs) as [-> | (Hget & items & Hch & Hne & ->)].
  - repeat split; auto.
  - simpl. repeat split. intros k l Hk.
    rewrite JsObjectFacts.get_set_other; [assumption | congruence].
Qed.



(** A call that returns a tree ran the ungrouped block and then
    [regroup] on the record the block left. *)
Lemma buildGroupTocContent_Ok (d : TocGroupData) (toc toc' : NavigationItem) :
  mapedTocData d <> [] ->
  snd (buildGroupTocContent d toc) = Ok toc' ->
  exists d1,
    setUngrouped d toc = Ok d1 /\
    fst (buildGroupTocContent d toc) = d1 /\
    mapedTocData d1 <> [] /\
    regroup d1 toc = Ok toc'.
Proof.
  intros Hne. rewrite (buildGroupTocContent_nonempty _ _ Hne).
  destruct (setUngrouped d toc) as [d1 |] eqn:Hs; simpl; [| discriminate].
  intros Hr. exists d1. eauto using setUngrouped_nonempty.
Qed.

(** The comparator throws on group nodes: they carry no reflection. *)
Lemma compareGroups_groupRoot (d : TocGroupData) (store : list NavigationItem)
    (g : string * list bool) (b : NavigationItem) :
  compareGroups d (groupRoot d store g) b = TypeError.
Proof. reflexivity. Qed.

Lemma regroup_throws (d : TocGroupData) (toc : NavigationItem) :
  (2 <= length (JsObject.keys (mapedTocData d)))%nat ->
  regroup d toc = TypeError.
Proof.
  intros Hlen. unfold regroup.
  destruct (children toc) as [items |]; [| reflexivity]. cbn.
  destruct (mapKeys d (JsObject.keys (mapedTocData d)) items) as [[groups store'] |] eqn:Hm;
    [| reflexivity].
  cbn. rewrite sortM_throws; [reflexivity | |].
  - intros a b Ha _. apply in_map_iff in Ha as (g & <- & _).
    apply compareGroups_groupRoot.
  - apply mapKeys_Ok in Hm as (Hg & _ & _). apply Forall2_length in Hg.
    rewrite length_map. lia.
Qed.

(** A second call on the same tree finds the record as the first call
    left it and repeats its outcome. *)
Lemma buildGroupTocContent_again (d : TocGroupData) (toc : NavigationItem) :
  buildGroupTocContent (fst (buildGroupTocContent d toc)) toc = buildGroupTocContent d toc.
Proof.
  destruct (mapedTocData d) as [| kv rest] eqn:Hm.
  - rewrite (buildGroupTocContent_empty d toc Hm). simpl.
    now apply buildGroupTocContent_empty.
  - assert (Hne : mapedTocData d <> []) by congruence.
    rewrite (buildGroupTocContent_nonempty d toc Hne).
    destruct (setUngrouped d toc) as [d1 |] eqn:Hs; simpl.
    + rewrite (buildGroupTocContent_nonempty d1 toc (setUngrouped_nonempty _ _ _ Hs Hne)).
      now rewrite (setUngrouped_idempotent _ _ _ Hs).
    + rewrite (buildGroupTocContent_nonempty d toc Hne). now rewrite Hs.
Qed.

(** The step of the build preserves the invariant of the record. *)
Lemma buildGroupTocContent_invariant (d : TocGroupData) (toc : NavigationItem) :
  indexInvariant d -> indexInvariant (fst (buildGroupTocContent d toc)).
Proof.
  intros Hinv.
  destruct (mapedTocData d) as [| kv rest] eqn:Hm.
  - now rewrite (buildGroupTocContent_empty d toc Hm).
  - assert (Hne : mapedTocData d <> []) by congruence.
    rewrite (buildGroupTocContent_nonempty d toc Hne).
    destruct (setUngrouped d toc) as [d1 |] eqn:Hs; simpl; [| assumption].
    destruct (setUngrouped_Ok _ _ _ Hs) as [-> | (Hget & items & Hch & Hdg & ->)];
      [assumption |].
    destruct Hinv as [Hu | (others & Hget' & _)]; [| congruence].
    right. exists (defaultGroups d items). simpl.
    split; [apply JsObjectFacts.get_set_same |]. split; [assumption |]. split.
    + intros n Hn. now apply defaultGroups_spec in Hn.
    + intros n. rewrite (Hu n). split.
      * intros (k & l & Hk & Hin). exists k, l.
        assert (k <> DEFAULT_UNGROUPED_NAME) by congruence.
        rewrite JsObjectFacts.get_set_other; auto.
      * intros (k & l & Hk & Hgetk & Hin). exists k, l.
        rewrite JsObjectFacts.get_set_other in Hgetk; auto.
Qed.

(** The indexer returns on the sample builds that the statements below
    name through [Sample.index]. *)
Lemma sample_builds_are_indexed :
  Forall (fun build : Options * list Reflection =>
            onBeginResolve (onBegin (fst build)) (fst build)
              (mkProject "my-lib" (snd build))
            = Ok (Sample.index (fst build) (snd build)))
    [(Sample.noOptions, []);
     (Sample.noOptions, [Sample.Grault]);
     (Sample.noOptions, [Sample.Foo]);
     (Sample.noOptions, [Sample.Qux]);
     (Sample.noOptions, [Sample.Foo; Sample.Baz]);
     (Sample.noOptions, [Sample.Foo; Sample.Qux]);
     (Sample.noOptions, [Sample.Qux; Sample.Foo]);
     (Sample.noOptions, [Sample.Fred; Sample.Baz]);
     (Sample.noOptions, [Sample.Foo; Sample.Bar; Sample.Baz]);
     (Sample.noOptions, [Sample.Foo; Sample.Baz; Sample.Qux]);
     (Sample.noOptions, [Sample.Foo; Sample.Qux; Sample.Bar]);
     (Sample.noOptions, [Sample.Fred; Sample.Foo; Sample.Baz]);
     (Sample.noOptions, [Sample.Plugh; Sample.Garply; Sample.Xyzzy; Sample.Qux]);
     (mkOptions (Some "64") None None, [Sample.Foo]);
     (mkOptions (Some "!128") None None, [Sample.Foo; Sample.Waldo]);
     (mkOptions None (Some ["Interface"; "Class"]) None, [Sample.Waldo; Sample.Garply])].
Proof. repeat (constructor; [vm_compute; reflexivity |]). constructor. Qed.

(* ================================================================== *)
(** * The claims *)

(** ** C1 -- which tags the grouping pattern recognizes *)

(** C1 (evaluation of the code where it departs from the claim).  With
    the default configuration the grouping names are [group], [kind] and
    [platform].  The tag [@grouping] bears none of these names, it only
    extends one; the compiled pattern [@(group|kind|platform)] has no
    anchor at its end, so it recognizes the tag all the same, and the
    indexer files the symbol under the tag's body. *)
Theorem grouping_pattern_accepts_longer_names :
  let this := onBegin Sample.noOptions in
  regexp this = RegExp.AtOneOf ["group"; "kind"; "platform"] /\
  ~ In "grouping" ["group"; "kind"; "platform"] /\
  matchesTag (regexp this) (Sample.tag "grouping" "Delta") = true /\
  mapedTocData (Sample.index Sample.noOptions [Sample.Grault]) = [("Delta", ["Grault"])] /\
  groupedData (Sample.index Sample.noOptions [Sample.Grault]) = ["Grault"].
Proof.
  cbv zeta. split; [reflexivity |]. split.
  - simpl. intros [H | [H | [H | []]]]; discriminate.
  - repeat split; vm_compute; reflexivity.
Qed.

(** Whatever the plain names the option adds, the built-in names are
    among the alternatives, and a tag whose name begins with one of them
    is recognized. *)
Lemma onBegin_recognizes_extensions (options : Options) (a rest body : string) :
  plainOptions options ->
  In a defaultTags ->
  matchesTag (regexp (onBegin options)) (mkCommentTag (a +:+ rest) body) = true.
Proof.
  intros _ Hin. unfold matchesTag, onBegin. cbn [regexp tagName RegExp.test].
  apply RegExpFacts.search_extension. apply filter_In. split.
  - apply in_app_iff. now left.
  - destruct Hin as [<- | [<- | [<- | []]]]; reflexivity.
Qed.

(** ** C2 -- pages of the project root and of modules *)

(** C2 (counterexample).  The page of the project root: the handler has
    no test for it, the trail is empty, the default tree lists [Foo], and
    the call returns a tree whose top level is the group node [Alpha]. *)
Lemma root_page_is_regrouped :
  let host := Sample.listing [Sample.Foo] in
  let d := Sample.index Sample.noOptions [Sample.Foo] in
  let default := buildToc Sample.root [] emptyNavigationItem ownerToc in
  isProject Sample.root = true /\
  map title (childList default) = ["Foo"] /\
  exists toc',
    snd (onBeginRendererPage d Sample.rootPage)
      = Ok (mkPageEvent (Some Sample.root) (Some toc')) /\
    toc' <> default /\
    map title (childList toc') = ["Alpha"] /\
    map groupTitle (childList toc') = [Some "Alpha"].
Proof.
  cbv zeta. split; [reflexivity |]. split; [reflexivity |].
  eexists. split; [vm_compute; reflexivity |].
  split; [| split; reflexivity].
  intros Heq. apply (f_equal (fun t => map title (childList t))) in Heq.
  vm_compute in Heq. discriminate.
Qed.

(** The loop stops at once on the project root and on a module. *)
Lemma climb_stop `{TocPlugin} (m : Reflection) (trail : list Reflection) :
  isProject m || kindOf m SomeModule = true -> climb m trail = Ok (m, trail).
Proof. destruct m; simpl. now intros ->. Qed.

(** C2 (amended).  The handler leaves a page alone only when its model is
    not a reflection.  On the page of the project root or of a module the
    loop collects nothing, the tree is built from the model itself with
    an empty trail, and [buildGroupTocContent] runs on it as on any other
    page: whenever groups are recorded and the call returns, the top
    level of the page consists of group nodes. *)
Theorem page_handler_regroups_root_and_modules `{TocPlugin}
    (d : TocGroupData) (page : PageEvent) (m : Reflection) :
  model page = Some m ->
  isProject m || kindOf m SomeModule = true ->
  let default := buildToc m [] emptyNavigationItem ownerToc in
  (forall t, onBeginRendererPage d (mkPageEvent None t) = (d, Ok (mkPageEvent None t))) /\
  fst (onBeginRendererPage d page) = fst (buildGroupTocContent d default) /\
  snd (onBeginRendererPage d page) =
    (toc' ← snd (buildGroupTocContent d default); Ok (mkPageEvent (Some m) (Some toc'))) /\
  (mapedTocData d <> [] ->
   forall page', snd (onBeginRendererPage d page) = Ok page' ->
     exists toc' roots,
       toc page' = Some toc' /\ children toc' = Some roots /\ roots <> [] /\
       forall root, In root roots -> exists key, groupTitle root = Some key).
Proof.
  intros Hm Hroot default.
  assert (Hrun : onBeginRendererPage d page =
                 (fst (buildGroupTocContent d default),
                  toc' ← snd (buildGroupTocContent d default);
                  Ok (mkPageEvent (Some m) (Some toc')))).
  { unfold onBeginRendererPage. rewrite Hm, (climb_stop m [] Hroot). reflexivity. }
  split; [reflexivity |]. rewrite Hrun. split; [reflexivity |]. split; [reflexivity |].
  intros Hne page' Hp. cbn [snd] in Hp. bind_inv Hp as toc' Htoc. injection Hp as <-.
  destruct (buildGroupTocContent_Ok _ _ _ Hne Htoc) as (d1 & _ & _ & Hne1 & Hr).
  destruct (regroup_Ok _ _ _ Hne1 Hr) as (items & store' & groups & roots & _ & Hmap & Hperm & ->).
  exists (setChildren default (Some roots)), roots.
  split; [reflexivity |]. split; [reflexivity |]. split.
  - intros ->. apply Permutation_nil_r, map_eq_nil in Hperm. subst groups.
    apply mapKeys_Ok in Hmap as (Hg & _ & _). inversion Hg as [Hk |].
    apply Hne1. apply JsObjectFacts.keys_nil. now symmetry.
  - intros root Hin. apply (Permutation_in _ (Permutation_sym Hperm)) in Hin.
    apply in_map_iff in Hin as (g & <- & _). simpl. eauto.
Qed.

(** C2 (witness): the page of the project root in a build with one
    group. *)
Lemma page_handler_regroups_root_and_modules_witness :
  let host := Sample.listing [Sample.Foo] in
  let d := Sample.index Sample.noOptions [Sample.Foo] in
  model Sample.rootPage = Some Sample.root /\
  isProject Sample.root || kindOf Sample.root SomeModule = true /\
  fst (onBeginRendererPage d Sample.rootPage) =
    fst (buildGroupTocContent d (buildToc Sample.root [] emptyNavigationItem ownerToc)).
Proof.
  cbv zeta. split; [reflexivity |]. split; [reflexivity |].
  apply (@page_handler_regroups_root_and_modules (Sample.listing [Sample.Foo])
           (Sample.index Sample.noOptions [Sample.Foo]) Sample.rootPage Sample.root);
    reflexivity.
Defined.

(** ** C3 -- the order of the group nodes *)

(** C3 (evaluation of the code where it departs from the claim).  The
    comparator reads [a.reflection.kindString] on the group nodes
    themselves; these are made by [new NavigationItem(key, homePath)] and
    have no reflection.  So whenever the record holds two groups or more
    once the ungrouped block has run, the sort throws and the call
    returns no tree at all, sorted or not. *)
Theorem sort_throws_with_two_groups (d : TocGroupData) (toc : NavigationItem) :
  (2 <= length (JsObject.keys (mapedTocData (fst (buildGroupTocContent d toc)))))%nat ->
  snd (buildGroupTocContent d toc) = TypeError.
Proof.
  intros Hlen.
  destruct (mapedTocData d) as [| kv rest] eqn:Hm.
  - rewrite (buildGroupTocContent_empty d toc Hm) in Hlen. simpl in Hlen.
    rewrite Hm in Hlen. simpl in Hlen. lia.
  - assert (Hne : mapedTocData d <> []) by congruence.
    rewrite (buildGroupTocContent_nonempty d toc Hne) in *.
    destruct (setUngrouped d toc) as [d1 |]; simpl in *; [| reflexivity].
    now apply regroup_throws.
Qed.

(** On nodes that do have a reflection the same comparator orders an
    interface before a class under [kind-sort-order = [Interface, Class]]. *)
Example sort_of_nodes_with_reflections :
  let options := mkOptions None (Some ["Interface"; "Class"]) None in
  let d := Sample.index options [Sample.Waldo; Sample.Garply] in
  sortM (compareGroups d) [Sample.itemOf Sample.Waldo; Sample.itemOf Sample.Garply]
    = Ok [Sample.itemOf Sample.Garply; Sample.itemOf Sample.Waldo].
Proof. vm_compute. reflexivity. Qed.

(** C3 (witness): [kind-sort-order = [Interface, Class]], a class in
    group [Alpha] and an interface in group [Beta]. *)
Lemma sort_throws_with_two_groups_witness :
  let options := mkOptions None (Some ["Interface"; "Class"]) None in
  let d := Sample.index options [Sample.Waldo; Sample.Garply] in
  let toc := Sample.treeOf [Sample.Waldo; Sample.Garply] in
  JsObject.keys (mapedTocData d) = ["Alpha"; "Beta"] /\
  compareKind (dataSortOrder d) "Interface" "Class" = Num (-1) /\
  (2 <= length (JsObject.keys (mapedTocData (fst (buildGroupTocContent d toc)))))%nat /\
  snd (buildGroupTocContent d toc) = TypeError.
Proof.
  cbv zeta. split; [vm_compute; reflexivity |]. split; [vm_compute; reflexivity |].
  assert (Hlen : (2 <= length (JsObject.keys (mapedTocData (fst (buildGroupTocContent
            (Sample.index (mkOptions None (Some ["Interface"; "Class"]) None)
               [Sample.Waldo; Sample.Garply])
            (Sample.treeOf [Sample.Waldo; Sample.Garply]))))))%nat).
  { vm_compute. lia. }
  split; [exact Hlen |].
  exact (sort_throws_with_two_groups _ _ Hlen).
Defined.

(** ** C4 -- [groupedData] and the member lists *)

(** C4 (counterexample).  [Foo] and [Bar] are grouped, [Baz] is not.  The
    first page lists all three; the ungrouped block stores [Baz] under
    [Others], and [Baz] is not in [groupedData]. *)
Lemma others_list_is_outside_groupedData :
  let d := Sample.index Sample.noOptions [Sample.Foo; Sample.Bar; Sample.Baz] in
  let toc := Sample.treeOf [Sample.Foo; Sample.Bar; Sample.Baz] in
  let d' := fst (buildGroupTocContent d toc) in
  reachable d' /\
  groupedData d' = ["Foo"; "Bar"] /\
  mapedTocData d' = [("Alpha", ["Foo"; "Bar"]); ("Others", ["Baz"])] /\
  ~ groupedIsUnion (groupedData d') (mapedTocData d').
Proof.
  cbv zeta. split.
  { apply reach_page,
      (reach_indexed (onBegin Sample.noOptions) Sample.noOptions
         (mkProject "my-lib" [Sample.Foo; Sample.Bar; Sample.Baz])).
    vm_compute. reflexivity. }
  split; [vm_compute; reflexivity |]. split; [vm_compute; reflexivity |].
  intros Hu. specialize (Hu "Baz"). destruct Hu as [_ Hu].
  assert (Hin : In "Baz" (groupedData (fst (buildGroupTocContent
            (Sample.index Sample.noOptions [Sample.Foo; Sample.Bar; Sample.Baz])
            (Sample.treeOf [Sample.Foo; Sample.Bar; Sample.Baz]))))).
  { apply Hu. exists "Others", ["Baz"]. split; [vm_compute; reflexivity | now left]. }
  vm_compute in Hin. intuition discriminate.
Qed.

(** C4 (amended).  As the indexer leaves the record, [groupedData] is the
    union of all member lists.  The regrouper may later add the list of
    ungrouped titles under [Others]; that list is not empty and shares no
    name with [groupedData], while [groupedData] remains the union of the
    lists of all other keys.  Every state of the record in a build has
    one of these two shapes. *)
Theorem index_invariant (d : TocGroupData) :
  reachable d -> indexInvariant d.
Proof.
  induction 1 as [this options project d Hd | d toc Hd IH].
  - left. now apply (onBeginResolve_groupedIsUnion this options project).
  - now apply buildGroupTocContent_invariant.
Qed.

(** C4 (witness): the record after the first page of the build above. *)
Lemma index_invariant_witness :
  indexInvariant
    (fst (buildGroupTocContent
            (Sample.index Sample.noOptions [Sample.Foo; Sample.Bar; Sample.Baz])
            (Sample.treeOf [Sample.Foo; Sample.Bar; Sample.Baz]))).
Proof.
  apply index_invariant.
  apply reach_page,
    (reach_indexed (onBegin Sample.noOptions) Sample.noOptions
       (mkProject "my-lib" [Sample.Foo; Sample.Bar; Sample.Baz])).
  vm_compute. reflexivity.
Defined.

(** ** C5 -- the kind filter *)

(** The probe has its only [@] in front, so the search can match at the
    first position only: a name has to begin the text [!<kind>]. *)
Lemma kindProbe_test (alts : list string) (r : Reflection) :
  RegExp.test (RegExp.AtOneOf alts) (kindProbe r) = true <->
  exists a, In a alts /\ String.prefix a (String "!" (Str.ofN (kind r))) = true.
Proof.
  unfold kindProbe, RegExp.test.
  assert (Hrest : RegExp.search alts (String "!" (Str.ofN (kind r))) = false).
  { apply RegExpFacts.search_noAt. simpl. apply RegExpFacts.noAt_ofN. }
  rewrite RegExpFacts.search_cons, Hrest, orb_false_r. unfold RegExp.matchHere.
  rewrite existsb_exists. reflexivity.
Qed.

(** C5 (counterexample).  The user adds the grouping name [64]; [Foo] is
    a function, of kind 64.  Its kind is one of the configured names, yet
    the probe is [@!64], the pattern finds no name after the [@], and
    [Foo] becomes a member of its group. *)
Lemma kind_equal_to_a_name_is_kept :
  let options := mkOptions (Some "64") None None in
  let d := Sample.index options [Sample.Foo] in
  dataRegexp d = RegExp.AtOneOf ["group"; "kind"; "platform"; "64"] /\
  In (Str.ofN (kind Sample.Foo)) ["group"; "kind"; "platform"; "64"] /\
  RegExp.test (dataRegexp d) (kindProbe Sample.Foo) = false /\
  exists toc',
    snd (buildGroupTocContent d (Sample.treeOf [Sample.Foo])) = Ok toc' /\
    map (fun root => (title root, map title (childList root))) (childList toc')
      = [("Alpha", ["Foo"])].
Proof.
  cbv zeta. split; [vm_compute; reflexivity |].
  split; [vm_compute; auto 10 |]. split; [vm_compute; reflexivity |].
  eexists. split; vm_compute; reflexivity.
Qed.

(** C5 (amended).  The kind filter drops a child exactly when the text
    [!<kind>], the numeric kind after an exclamation mark, begins with one
    of the configured names; a kind that merely equals a name is not
    dropped.  A dropped child is a member of no group of the regrouped
    tree. *)
Theorem kind_filter_drops_on_bang_prefix (d : TocGroupData) (alts : list string)
    (toc toc' : NavigationItem) :
  dataRegexp d = RegExp.AtOneOf alts ->
  Forall (fun a => RegExp.plainName a = true) alts ->
  mapedTocData d <> [] ->
  snd (buildGroupTocContent d toc) = Ok toc' ->
  (forall r, RegExp.test (dataRegexp d) (kindProbe r) = true <->
     exists a, In a alts /\ String.prefix a (String "!" (Str.ofN (kind r))) = true) /\
  (forall item r, In item (childList toc) -> reflection item = Some r ->
     RegExp.test (dataRegexp d) (kindProbe r) = true ->
     forall root c, In root (childList toc') -> In c (childList root) ->
       ~ sameNode item c).
Proof.
  intros Hre _ Hne Hok. split.
  - intros r. rewrite Hre. apply kindProbe_test.
  - intros item r _ Hr Hp root c Hroot Hc (_ & _ & _ & Hrc & _).
    destruct (buildGroupTocContent_Ok _ _ _ Hne Hok) as (d1 & Hs & _ & Hne1 & Hreg).
    destruct (setUngrouped_frame _ _ _ Hs) as (_ & _ & _ & Hre1 & _).
    destruct (regroup_groups _ _ _ Hne1 Hreg) as (items & roots & _ & Hch & Hmem & _).
    unfold childList in Hroot. rewrite Hch in Hroot. simpl in Hroot.
    destruct (Hmem root Hroot) as (key & gv & _ & _ & Hcs).
    destruct (Hcs c Hc) as (_ & x & _ & ((_ & _ & _ & Hrx & _) & _) & Hv).
    unfold verdict in Hv. rewrite Hrx, <- Hrc, Hr, Hre1, Hp in Hv. discriminate.
Qed.

(** C5 (witness): the user adds the name [!128]; the class [Waldo], of
    kind 128, is dropped from group [Alpha], the function [Foo] stays. *)
Lemma kind_filter_drops_on_bang_prefix_witness :
  let options := mkOptions (Some "!128") None None in
  let d := Sample.index options [Sample.Foo; Sample.Waldo] in
  let toc := Sample.treeOf [Sample.Foo; Sample.Waldo] in
  let toc' := setChildren toc (Some
     [mkNavigationItem "Alpha" "modules/_index_.mylib.html" None
        (Some [setParent (Sample.itemOf Sample.Foo) "Alpha"]) None false (Some "Alpha")]) in
  snd (buildGroupTocContent d toc) = Ok toc' /\
  (RegExp.test (dataRegexp d) (kindProbe Sample.Waldo) = true <->
   exists a, In a ["group"; "kind"; "platform"; "!128"] /\
             String.prefix a (String "!" (Str.ofN (kind Sample.Waldo))) = true).
Proof.
  cbv zeta.
  assert (Hok : snd (buildGroupTocContent
                       (Sample.index (mkOptions (Some "!128") None None)
                          [Sample.Foo; Sample.Waldo])
                       (Sample.treeOf [Sample.Foo; Sample.Waldo]))
                = Ok (setChildren (Sample.treeOf [Sample.Foo; Sample.Waldo]) (Some
     [mkNavigationItem "Alpha" "modules/_index_.mylib.html" None
        (Some [setParent (Sample.itemOf Sample.Foo) "Alpha"]) None false (Some "Alpha")]))).
  { vm_compute. reflexivity. }
  split; [exact Hok |].
  refine (proj1 (kind_filter_drops_on_bang_prefix _ ["group"; "kind"; "platform"; "!128"]
                   _ _ _ _ _ Hok) Sample.Waldo).
  - vm_compute. reflexivity.
  - repeat constructor.
  - vm_compute. discriminate.
Defined.

(** ** C6 -- the first grouping tag wins *)

(** C6 (evaluation of the code where it departs from the claim).  The
    member lists are properties of a plain object, and the code reads
    [mapedTocData[groupKey]] to learn whether the list exists.  Under a
    name that [Object.prototype] defines, such as [constructor] or
    [toString], the read finds the inherited value, no list is created,
    and the [push] that follows throws.  So the indexer ends with an
    error and appends the name to no list exactly when the first
    grouping tag of some symbol has such a name as the first line of its
    body. *)
Theorem inherited_group_key_throws (this : TocGroupPlugin) (options : Options)
    (project : Project) :
  onBeginResolve this options project = TypeError <->
  exists ref t key,
    In ref (reflections project) /\
    firstGroupingTag (regexp this) ref = Some t /\
    isFirstLine key (text t) = true /\
    In key ["constructor"; "toString"; "toLocaleString"; "valueOf"; "hasOwnProperty";
            "isPrototypeOf"; "propertyIsEnumerable"; "__proto__";
            "__defineGetter__"; "__defineSetter__"; "__lookupGetter__";
            "__lookupSetter__"].
Proof.
  rewrite onBeginResolve_TypeError. split.
  - intros (ref & t & Hin & Ht & Hi). exists ref, t, (Str.firstLine (text t)).
    split; [assumption |]. split; [assumption |].
    split; [now apply isFirstLine_spec |].
    apply inArray_In in Hi. simpl in Hi. simpl. tauto.
  - intros (ref & t & key & Hin & Ht & Hk & Hi).
    apply isFirstLine_spec in Hk. subst key. exists ref, t.
    split; [assumption |]. split; [assumption |].
    apply inArray_In. simpl in Hi. simpl. tauto.
Qed.

(** C6 (failing input): [Foo] carries [@group Alpha] and [Thud] carries
    [@group constructor]. *)
Lemma inherited_group_key_throws_witness :
  onBeginResolve (onBegin Sample.noOptions) Sample.noOptions
    (mkProject "my-lib" [Sample.Foo; Sample.Thud]) = TypeError.
Proof.
  apply inherited_group_key_throws.
  exists Sample.Thud, (Sample.tag "group" "constructor"), "constructor".
  split; [right; left; reflexivity |].
  split; [vm_compute; reflexivity |]. split; [reflexivity | now left].
Defined.

(** ** C7 -- running the regrouper twice *)

(** C7.  A second run of the regrouper on the same tree, or of the page
    handler on the same page, starting from the record as the first run
    left it, ends with the same record and the same outcome: the same
    tree, with the same groups in the same order and the same members, or
    the same error. *)
Theorem regrouper_twice_same_result `{TocPlugin} (d : TocGroupData) (page : PageEvent) :
  (forall toc,
     let first := buildGroupTocContent d toc in
     buildGroupTocContent (fst first) toc = first) /\
  (let first := onBeginRendererPage d page in
   onBeginRendererPage (fst first) page = first).
Proof.
  split; [intros toc; apply buildGroupTocContent_again |].
  cbv zeta. unfold onBeginRendererPage.
  destruct (model page) as [m |]; [| reflexivity].
  destruct (climb m []) as [[top trail] |]; [| reflexivity].
  cbn [fst]. now rewrite buildGroupTocContent_again.
Qed.

(** ** C8 -- deprecated and grouped *)




(** Where the sort has nothing to compare, the claim holds: with the
    single group [Beta] the page lists [Qux] in it, flagged. *)
Example deprecated_member_of_a_single_group :
  let d := Sample.index Sample.noOptions [Sample.Qux] in
  snd (buildGroupTocContent d (Sample.treeOf [Sample.Qux]))
    = Ok (setChildren (Sample.treeOf [Sample.Qux]) (Some
        [mkNavigationItem "Beta" "modules/_index_.mylib.html" None
           (Some [setParent (setDeprecated (Sample.itemOf Sample.Qux)) "Beta"])
           None false (Some "Beta")])).
Proof. vm_compute. reflexivity. Qed.

(** ** C9 -- a build without groups *)

Lemma fold_scan_no_match (re : RegExp.t) (refs : list Reflection) (st : Scan) :
  (forall ref c ts t,
     In ref refs -> comment ref = Some c -> tags c = Some ts -> In t ts ->
     matchesTag re t = false) ->
  scanMaped (fold_left (reflectionOutcome re) refs st) = scanMaped st.
Proof.
  revert st. induction refs as [| ref refs IH]; intros st Hno; simpl; [reflexivity |].
  rewrite IH by (intros r c ts t Hin; apply Hno; now right).
  unfold reflectionOutcome.
  destruct (comment ref) as [c |] eqn:Hc; [| reflexivity].
  destruct (tags c) as [ts |] eqn:Hts; [| reflexivity].
  apply tagsOutcome_no_match. apply List.Forall_forall. intros t Ht.
  apply (Hno ref c ts t); auto. now left.
Qed.

Lemma firstGroupingTag_no_match (re : RegExp.t) (ref : Reflection) :
  (forall c ts t, comment ref = Some c -> tags c = Some ts -> In t ts ->
     matchesTag re t = false) ->
  firstGroupingTag re ref = None.
Proof.
  intros Hno. unfold firstGroupingTag, tagsOf.
  destruct (List.find (matchesTag re) _) as [t |] eqn:Hf; [| reflexivity].
  apply find_some in Hf as [Hin Ht].
  destruct (comment ref) as [[[ts |]] |]; try destruct Hin.
  rewrite (Hno _ ts t eq_refl eq_refl Hin) in Ht. discriminate.
Qed.

(** C9.  If the grouping pattern matches no tag of any symbol of the
    build, the indexer returns a record whose [mapedTocData] is empty,
    and the regrouper leaves the record and the tree of every page as
    they are: the page gets the default tree of the tree builder. *)
Theorem no_groups_no_replacement `{TocPlugin} (this : TocGroupPlugin) (options : Options)
    (project : Project) :
  (forall ref c ts t,
     In ref (reflections project) -> comment ref = Some c -> tags c = Some ts ->
     In t ts -> matchesTag (regexp this) t = false) ->
  exists d,
    onBeginResolve this options project = Ok d /\
    mapedTocData d = [] /\
    (forall toc, buildGroupTocContent d toc = (d, Ok toc)) /\
    (forall page m top trail,
       model page = Some m -> climb m [] = Ok (top, trail) ->
       onBeginRendererPage d page =
         (d, Ok (mkPageEvent (model page)
                   (Some (buildToc top trail emptyNavigationItem ownerToc))))).
Proof.
  intros Hno.
  destruct (onBeginResolve_returns this options project) as (d & Hd).
  { intros ref t Hin Ht.
    rewrite firstGroupingTag_no_match in Ht; [discriminate |].
    intros c ts u. now apply Hno. }
  exists d. split; [assumption |].
  assert (Hm : mapedTocData d = []).
  { apply onBeginResolve_Ok in Hd as ->. cbn [recordOf mapedTocData].
    now rewrite fold_scan_no_match. }
  split; [assumption |]. split.
  - intros toc. now apply buildGroupTocContent_empty.
  - intros page m top trail Hmodel Hclimb. unfold onBeginRendererPage.
    rewrite Hmodel, Hclimb. now rewrite buildGroupTocContent_empty.
Qed.

(** C9 (witness): a project whose only symbol has no tag. *)
Lemma no_groups_no_replacement_witness :
  let host := Sample.listing [Sample.Baz] in
  exists d,
    onBeginResolve (onBegin Sample.noOptions) Sample.noOptions
      (mkProject "my-lib" [Sample.Baz]) = Ok d /\
    mapedTocData d = [] /\
    onBeginRendererPage d Sample.rootPage
      = (d, Ok (mkPageEvent (Some Sample.root) (Some (Sample.treeOf [Sample.Baz])))).
Proof.
  cbv zeta.
  destruct (@no_groups_no_replacement (Sample.listing [Sample.Baz])
              (onBegin Sample.noOptions) Sample.noOptions
              (mkProject "my-lib" [Sample.Baz])) as (d & Hd & Hm & _ & Hpage).
  - intros ref c ts t [<- | []] [= <-] [= <-] [].
  - exists d. split; [exact Hd |]. split; [exact Hm |].
    exact (Hpage Sample.rootPage Sample.root Sample.root [] eq_refl eq_refl).
Defined.

(** ** C10 -- a group that the indexer itself names [Others] *)

(** C10 (evaluation of the code where it departs from the claim).  The
    first grouping tag of some symbol has [Others] as the first line of
    its body, and the indexer returns.  Then the key is present when the
    regrouper looks for it and the ungrouped block changes nothing, for
    this page and so for the next ones.  A call that returns a tree
    returns one in which every top-level node is a group node and every
    member of a group has its title in [groupedData]: a default child
    whose title is not in [groupedData] is in no group.  But a call
    returns only when [Others] is the single group: with any second
    group the sort of the group nodes throws (the defect of C3), and the
    page gets no regrouped tree for the ungrouped children to disappear
    from. *)
Theorem explicit_Others_hides_ungrouped_unless_sort_throws (this : TocGroupPlugin)
    (options : Options) (project : Project) (d : TocGroupData) (ref : Reflection)
    (pre post : list CommentTag) (t : CommentTag) :
  onBeginResolve this options project = Ok d ->
  In ref (reflections project) ->
  comment ref = Some (mkComment (Some (pre ++ t :: post))) ->
  Forall (fun u => matchesTag (regexp this) u = false) pre ->
  matchesTag (regexp this) t = true ->
  isFirstLine DEFAULT_UNGROUPED_NAME (text t) = true ->
  forall toc,
    setUngrouped d toc = Ok d /\
    fst (buildGroupTocContent d toc) = d /\
    ((2 <= length (JsObject.keys (mapedTocData d)))%nat ->
     snd (buildGroupTocContent d toc) = TypeError) /\
    forall toc', snd (buildGroupTocContent d toc) = Ok toc' ->
      (forall root, In root (childList toc') ->
         exists key, isGroupNode d root key /\ In key (JsObject.keys (mapedTocData d))) /\
      (forall item, In item (childList toc) -> ~ In (title item) (groupedData d) ->
         forall root c, In root (childList toc') -> In c (childList root) ->
           title c <> title item).
Proof.
  intros Hd Hin Hc Hpre Ht Hkey toc. apply isFirstLine_spec in Hkey.
  destruct (onBeginResolve_member this options project d ref pre post t Hd Hin Hc Hpre Ht)
    as ((l & Hget & Hl) & _).
  rewrite Hkey in Hget.
  assert (Hne : mapedTocData d <> []).
  { intros Hnil. rewrite Hnil in Hget. discriminate. }
  pose proof (setUngrouped_present d toc l Hget) as Hs.
  assert (Hrun : buildGroupTocContent d toc = (d, regroup d toc)).
  { now rewrite (buildGroupTocContent_nonempty d toc Hne), Hs. }
  split; [assumption |]. rewrite Hrun. split; [reflexivity |].
  cbn [snd]. split; [apply regroup_throws |]. intros toc' Hreg.
  destruct (regroup_groups _ _ _ Hne Hreg) as (items & roots & Hitems & Hch & Hmem & _).
  unfold childList at 1 3. rewrite Hch. simpl. split.
  - intros root Hroot. destruct (Hmem root Hroot) as (key & gv & Hnode & Hgv & _).
    exists key. split; [assumption |]. eapply JsObjectFacts.get_Some_keys; eauto.
  - intros item _ Hnot root c Hroot Hcin Htitle.
    destruct (Hmem root Hroot) as (key & gv & _ & Hgv & Hcs).
    destruct (Hcs c Hcin) as (_ & x & _ & ((Hxt & _) & _) & Hv).
    apply Hnot. rewrite <- Htitle, <- Hxt.
    apply (onBeginResolve_groupedIsUnion this options project d Hd).
    exists key, gv. split; [assumption |].
    unfold verdict in Hv. destruct (reflection x); [| discriminate].
    apply andb_true_iff in Hv as [_ Hv]. now apply inArray_In.
Qed.

(** C10 (failing input): [Fred] carries [@group Others], [Foo] carries
    [@group Alpha], [Baz] has no tag.  The ungrouped block is skipped,
    and the regrouper throws: the page keeps no regrouped tree. *)
Lemma explicit_Others_hides_ungrouped_unless_sort_throws_witness :
  let d := Sample.index Sample.noOptions [Sample.Fred; Sample.Foo; Sample.Baz] in
  let toc := Sample.treeOf [Sample.Fred; Sample.Foo; Sample.Baz] in
  onBeginResolve (onBegin Sample.noOptions) Sample.noOptions
    (mkProject "my-lib" [Sample.Fred; Sample.Foo; Sample.Baz]) = Ok d /\
  mapedTocData d = [("Others", ["Fred"]); ("Alpha", ["Foo"])] /\
  setUngrouped d toc = Ok d /\
  snd (buildGroupTocContent d toc) = TypeError.
Proof.
  cbv zeta.
  assert (Hd : onBeginResolve (onBegin Sample.noOptions) Sample.noOptions
                 (mkProject "my-lib" [Sample.Fred; Sample.Foo; Sample.Baz])
               = Ok (Sample.index Sample.noOptions [Sample.Fred; Sample.Foo; Sample.Baz])).
  { vm_compute. reflexivity. }
  destruct (explicit_Others_hides_ungrouped_unless_sort_throws _ _ _ _ Sample.Fred
              [] [] (Sample.tag "group" "Others") Hd)
    with (toc := Sample.treeOf [Sample.Fred; Sample.Foo; Sample.Baz])
    as (Hs & _ & Hthrow & _).
  - now left.
  - reflexivity.
  - constructor.
  - vm_compute. reflexivity.
  - reflexivity.
  - split; [exact Hd |]. split; [vm_compute; reflexivity |]. split; [exact Hs |].
    apply Hthrow. vm_compute. lia.
Defined.

(** Where [Others] is the single group, the claim holds: the page lists
    [Fred] in it, and the untagged [Baz] is gone. *)
Example explicit_Others_as_the_single_group :
  let d := Sample.index Sample.noOptions [Sample.Fred; Sample.Baz] in
  let toc := Sample.treeOf [Sample.Fred; Sample.Baz] in
  snd (buildGroupTocContent d toc)
    = Ok (setChildren toc (Some
        [mkNavigationItem "Others" "modules/_index_.mylib.html" None
           (Some [setParent (Sample.itemOf Sample.Fred) "Others"])
           None false (Some "Others")])).
Proof. vm_compute. reflexivity. Qed.

(* ================================================================== *)
(** * Further properties of the plugin *)

(** ** Texts *)

Lemma append_cons (c : ascii) (s1 s2 : string) :
  String c s1 +:+ s2 = String c (s1 +:+ s2).
Proof. reflexivity. Qed.

Lemma append_nil_r (s : string) : s +:+ EmptyString = s.
Proof.
  induction s as [| c s IH]; [reflexivity |]. now rewrite append_cons, IH.
Qed.

Lemma append_empty_l (s : string) : EmptyString +:+ s = s.
Proof. reflexivity. Qed.

Lemma prefix_spec (a s : string) :
  String.prefix a s = true <-> exists rest, s = a +:+ rest.
Proof.
  split.
  - revert s. induction a as [| c a IH]; intros s Hp.
    + exists s. reflexivity.
    + destruct s as [| c' s]; [discriminate |]. simpl in Hp.
      destruct (ascii_dec c c') as [-> | Hne]; [| discriminate].
      destruct (IH s Hp) as (rest & ->). exists rest. reflexivity.
  - intros (rest & ->). apply RegExpFacts.prefix_app.
Qed.

Lemma toLowerCase_idempotent (s : string) :
  Str.toLowerCase (Str.toLowerCase s) = Str.toLowerCase s.
Proof.
  induction s as [| c s IH]; [reflexivity |]. cbn [Str.toLowerCase]. rewrite IH. f_equal.
  unfold Str.lowerChar.
  destruct (((65 <=? nat_of_ascii c)%nat && (nat_of_ascii c <=? 90)%nat)) eqn:Hup.
  - apply andb_true_iff in Hup as [H1 H2].
    apply Nat.leb_le in H1. apply Nat.leb_le in H2.
    rewrite nat_ascii_embedding by lia.
    replace ((nat_of_ascii c + 32 <=? 90)%nat) with false
      by (symmetry; apply Nat.leb_gt; lia).
    now rewrite andb_false_r.
  - now rewrite Hup.
Qed.

Lemma firstLine_idempotent (s : string) : Str.firstLine (Str.firstLine s) = Str.firstLine s.
Proof.
  induction s as [| c s IH]; [reflexivity |]. cbn [Str.firstLine].
  destruct (Str.isLineBreak c) eqn:Hc; [reflexivity |].
  cbn [Str.firstLine]. now rewrite Hc, IH.
Qed.

(** ** The grouping pattern *)

Lemma search_spec (alts : list string) (s : string) :
  RegExp.search alts s = true <->
  exists pre a rest, In a alts /\ s = pre +:+ String "@" (a +:+ rest).
Proof.
  split.
  - induction s as [| c s IH]; cbn [RegExp.search]; intros Hs.
    + simpl in Hs. discriminate.
    + apply orb_true_iff in Hs as [Hm | Hs].
      * unfold RegExp.matchHere in Hm.
        destruct (Ascii.eqb_spec c "@") as [-> | Hne].
        -- apply existsb_exists in Hm as (a & Hin & Hp).
           apply prefix_spec in Hp as (rest & ->).
           exists EmptyString, a, rest. auto.
        -- destruct c as [[] [] [] [] [] [] [] []]; try discriminate. congruence.
      * destruct (IH Hs) as (pre & a & rest & Hin & ->).
        exists (String c pre), a, rest. auto.
  - intros (pre & a & rest & Hin & ->).
    induction pre as [| c pre IH].
    + now apply RegExpFacts.search_extension.
    + rewrite append_cons. now apply RegExpFacts.search_skip.
Qed.

(** The alternatives [onBegin] compiles. *)
Lemma onBegin_alternatives (options : Options) :
  regexp (onBegin options) =
    RegExp.AtOneOf
      (defaultTags ++
       List.filter (fun item => negb (String.length item =? 0)%nat)
         (Str.split "," (orElse (tocGroupOption options) EmptyString))).
Proof. unfold onBegin. cbn [regexp]. now rewrite List.filter_app. Qed.

Lemma length_zero_empty (s : string) : (String.length s =? 0)%nat = true <-> s = EmptyString.
Proof. destruct s; simpl; split; congruence. Qed.

Lemma plainOptions_sample : plainOptions (mkOptions (Some "category,,since") None None).
Proof. unfold plainOptions. vm_compute. repeat constructor. Qed.

(** X1.  The option entries are free of regular-expression operators.
    Then, for a tag name that holds no [@], the compiled pattern matches
    the tag exactly when the name begins with a built-in name or with an
    entry of the option that is not empty: the pattern has no anchor at
    its end. *)
Theorem grouping_tag_iff_name_begins_with_alternative (options : Options)
    (tag : CommentTag) :
  plainOptions options ->
  RegExp.noAt (tagName tag) = true ->
  (matchesTag (regexp (onBegin options)) tag = true <->
   exists a,
     (In a defaultTags \/
      In a (Str.split "," (orElse (tocGroupOption options) EmptyString))) /\
     a <> EmptyString /\ String.prefix a (tagName tag) = true).
Proof.
  intros _ Hno. rewrite onBegin_alternatives. unfold matchesTag, RegExp.test.
  rewrite RegExpFacts.search_cons, (RegExpFacts.search_noAt _ _ Hno), orb_false_r.
  unfold RegExp.matchHere. rewrite existsb_exists. split.
  - intros (a & Hin & Hp). exists a. apply in_app_iff in Hin as [Hin | Hin].
    + split; [now left |]. split; [| assumption].
      destruct Hin as [<- | [<- | [<- | []]]]; discriminate.
    + apply filter_In in Hin as [Hin Hlen]. split; [now right |].
      split; [| assumption]. intros ->. discriminate.
  - intros (a & [Hin | Hin] & Hne & Hp); exists a; (split; [| assumption]);
      apply in_app_iff; [now left | right].
    apply filter_In. split; [assumption |]. apply negb_true_iff.
    destruct (String.length a =? 0)%nat eqn:E; [| reflexivity].
    apply length_zero_empty in E. congruence.
Qed.

Lemma grouping_tag_iff_name_begins_with_alternative_witness :
  let options := mkOptions (Some "category,,since") None None in
  matchesTag (regexp (onBegin options)) (Sample.tag "sinceWhen" "2.0") = true <->
  exists a,
    (In a defaultTags \/ In a (Str.split "," "category,,since")) /\
    a <> EmptyString /\ String.prefix a "sinceWhen" = true.
Proof.
  cbv zeta.
  apply (grouping_tag_iff_name_begins_with_alternative
           (mkOptions (Some "category,,since") None None) (Sample.tag "sinceWhen" "2.0")).
  - apply plainOptions_sample.
  - reflexivity.
Defined.

(** X2.  The option entries are free of regular-expression operators.
    Then every entry of the comma-separated option, unless it is empty,
    is a tag name that the compiled pattern recognizes. *)
Theorem configured_name_is_recognized (options : Options) (user a body : string) :
  plainOptions options ->
  tocGroupOption options = Some user ->
  In a (Str.split "," user) ->
  a <> EmptyString ->
  matchesTag (regexp (onBegin options)) (mkCommentTag a body) = true.
Proof.
  intros _ Hopt Hin Hne. rewrite onBegin_alternatives. unfold matchesTag.
  cbn [tagName RegExp.test].
  replace (String "@" a) with (String "@" (a +:+ EmptyString))
    by now rewrite append_nil_r.
  apply RegExpFacts.search_extension.
  apply in_app_iff. right. apply filter_In.
  assert (Huser : user <> EmptyString).
  { intros ->. simpl in Hin. destruct Hin as [<- | []]. congruence. }
  rewrite Hopt. unfold orElse.
  destruct (String.length user =? 0)%nat eqn:Hlen.
  - apply length_zero_empty in Hlen. congruence.
  - split; [assumption |]. apply negb_true_iff.
    destruct (String.length a =? 0)%nat eqn:Ha; [| reflexivity].
    apply length_zero_empty in Ha. congruence.
Qed.

Lemma configured_name_is_recognized_witness :
  let options := mkOptions (Some "category,,since") None None in
  In "since" (Str.split "," "category,,since") /\
  matchesTag (regexp (onBegin options)) (mkCommentTag "since" "2.0") = true.
Proof.
  cbv zeta. split; [vm_compute; auto |].
  apply (configured_name_is_recognized _ "category,,since");
    [apply plainOptions_sample | reflexivity | | discriminate].
  vm_compute. auto.
Defined.

Lemma split_no_separator (sep : ascii) (s a : string) :
  In a (Str.split sep s) -> includes (String sep EmptyString) a = false.
Proof.
  revert a. induction s as [| c s IH]; intros a; cbn [Str.split].
  - intros [<- | []]. reflexivity.
  - destruct (Ascii.eqb_spec c sep) as [-> | Hne].
    + intros [<- | Hin]; [reflexivity | now apply IH].
    + destruct (Str.split sep s) as [| w ws] eqn:Hs.
      * intros [<- | []]. cbn. destruct (ascii_dec sep c); [congruence | reflexivity].
      * intros [<- | Hin]; [| apply IH; now right].
        cbn [includes]. rewrite (IH w) by now left.
        cbn. destruct (ascii_dec sep c); [congruence | reflexivity].
Qed.

(** X3.  The option entries are free of regular-expression operators.
    Then the pattern has the three built-in names first and no empty
    alternative (an empty alternative would match every tag), and no
    alternative taken from the option holds a comma.  So a tag with an
    empty name is never a grouping tag. *)
Theorem alternatives_are_nonempty (options : Options) :
  plainOptions options ->
  exists userTags,
    regexp (onBegin options) = RegExp.AtOneOf (defaultTags ++ userTags) /\
    Forall (fun a => a <> EmptyString) (defaultTags ++ userTags) /\
    Forall (fun a => includes "," a = false) userTags /\
    forall body, matchesTag (regexp (onBegin options)) (mkCommentTag EmptyString body) = false.
Proof.
  intros _. eexists. split; [apply onBegin_alternatives |].
  set (userTags := List.filter _ _).
  assert (Hne : Forall (fun a => a <> EmptyString) (defaultTags ++ userTags)).
  { apply Forall_app. split.
    - repeat constructor; discriminate.
    - apply List.Forall_forall. intros a Ha. apply filter_In in Ha as [_ Ha].
      intros ->. discriminate. }
  split; [assumption |]. split.
  - apply List.Forall_forall. intros a Ha. apply filter_In in Ha as [Ha _].
    now apply split_no_separator in Ha.
  - intros body. rewrite onBegin_alternatives. fold userTags.
    unfold matchesTag. cbn. rewrite orb_false_r.
    apply not_true_is_false. intros Hex.
    apply existsb_exists in Hex as (a & Hin & Hp).
    rewrite List.Forall_forall in Hne. apply (Hne a).
    + apply in_app_iff. now right.
    + destruct a; [reflexivity | discriminate].
Qed.

Lemma alternatives_are_nonempty_witness :
  let options := mkOptions (Some "category,,since") None None in
  exists userTags,
    regexp (onBegin options) = RegExp.AtOneOf (defaultTags ++ userTags) /\
    Forall (fun a => a <> EmptyString) (defaultTags ++ userTags).
Proof.
  cbv zeta.
  destruct (alternatives_are_nonempty (mkOptions (Some "category,,since") None None))
    as (userTags & Hre & Hne & _).
  - apply plainOptions_sample.
  - exists userTags. split; assumption.
Defined.

(** ** The kind sort table *)







(** [compareKind] does not look at the case of its arguments. *)
Lemma compareKind_ignores_case (table : gmap string nat) (a b : string) :
  compareKind table (Str.toLowerCase a) b = compareKind table a b /\
  compareKind table a (Str.toLowerCase b) = compareKind table a b.
Proof. unfold compareKind. now rewrite !toLowerCase_idempotent. Qed.



(** ** The home link path and the home page test *)

Lemma includes_spec (needle s : string) :
  includes needle s = true <-> exists pre post, s = pre +:+ needle +:+ post.
Proof.
  split.
  - induction s as [| c s IH]; cbn [includes]; intros Hs.
    + rewrite orb_false_r in Hs. apply prefix_spec in Hs as (post & ->).
      exists EmptyString, post. reflexivity.
    + apply orb_true_iff in Hs as [Hp | Hs].
      * apply prefix_spec in Hp as (post & ->). exists EmptyString, post. reflexivity.
      * destruct (IH Hs) as (pre & post & ->). exists (String c pre), post. reflexivity.
  - intros (pre & post & ->). induction pre as [| c pre IH].
    + rewrite append_empty_l.
      destruct (needle +:+ post) eqn:E; cbn [includes]; rewrite <- E;
        rewrite RegExpFacts.prefix_app; reflexivity.
    + rewrite append_cons. cbn [includes]. rewrite IH. apply orb_true_r.
Qed.

Lemma prefix_other_char (a c : ascii) (s : string) :
  a <> c -> String.prefix (String a EmptyString) (String c s) = false.
Proof.
  intros Hne. unfold String.prefix. destruct (ascii_dec a c); [congruence | reflexivity].
Qed.

Lemma stripHyphens_no_hyphen (s : string) : includes "-" (Str.stripHyphens s) = false.
Proof.
  induction s as [| c s IH]; [reflexivity |]. cbn [Str.stripHyphens].
  destruct (Ascii.eqb_spec c "-") as [-> | Hne]; [assumption |].
  cbn [includes]. rewrite IH, orb_false_r. apply prefix_other_char. congruence.
Qed.

Lemma orElse_nonempty (a : option string) (b : string) :
  b <> EmptyString -> orElse a b <> EmptyString.
Proof.
  intros Hb. unfold orElse. destruct a as [s |]; [| assumption].
  destruct (String.length s =? 0)%nat eqn:Hlen; [assumption |].
  intros ->. discriminate.
Qed.

Lemma homePath_nonempty (this : TocGroupPlugin) (options : Options) (project : Project)
    (st : Scan) :
  homePath (recordOf this options project st) <> EmptyString.
Proof. cbn [recordOf homePath]. apply orElse_nonempty. discriminate. Qed.

(** X6.  The link target of the group nodes, in the record the indexer
    returns, is never empty.  A non-empty [homePath] option is taken as
    it is; an unset or empty one gives [modules/_index_.<name>.html],
    where [<name>] is the project name with every hyphen removed. *)
Theorem homePath_override_or_default (this : TocGroupPlugin) (options : Options)
    (project : Project) (d : TocGroupData) :
  onBeginResolve this options project = Ok d ->
  homePath d <> EmptyString /\
  (forall p, homePathOption options = Some p -> p <> EmptyString -> homePath d = p) /\
  (homePathOption options = None \/ homePathOption options = Some EmptyString ->
   homePath d =
     "modules/_index_." +:+ Str.stripHyphens (projectName project) +:+ ".html") /\
  includes "-" (Str.stripHyphens (projectName project)) = false.
Proof.
  intros Hd. apply onBeginResolve_Ok in Hd as ->.
  split; [apply homePath_nonempty |]. split; [| split].
  - intros p Hp Hne. cbn [recordOf homePath]. rewrite Hp. unfold orElse.
    destruct (String.length p =? 0)%nat eqn:Hlen; [| reflexivity].
    apply length_zero_empty in Hlen. congruence.
  - intros [Hp | Hp]; cbn [recordOf homePath]; rewrite Hp; reflexivity.
  - apply stripHyphens_no_hyphen.
Qed.

Lemma homePath_override_or_default_witness :
  let d := Sample.index Sample.noOptions [Sample.Foo] in
  onBeginResolve (onBegin Sample.noOptions) Sample.noOptions
    (mkProject "my-lib" [Sample.Foo]) = Ok d /\
  homePath d = "modules/_index_.mylib.html".
Proof.
  cbv zeta.
  assert (Hd : onBeginResolve (onBegin Sample.noOptions) Sample.noOptions
                 (mkProject "my-lib" [Sample.Foo])
               = Ok (Sample.index Sample.noOptions [Sample.Foo])).
  { vm_compute. reflexivity. }
  split; [exact Hd |].
  destruct (homePath_override_or_default _ _ _ _ Hd) as (_ & _ & Hdefault & _).
  apply Hdefault. now left.
Defined.

(** X7.  Once the indexer has returned, [isHomePage] holds exactly of the
    pages whose url contains the home link path.  It answers [false],
    without throwing, when the project carries no record yet, and when
    the page, its url or its project is missing or the url is empty. *)
Theorem isHomePage_iff_url_contains_homePath (this : TocGroupPlugin) (options : Options)
    (project : Project) (d : TocGroupData) (url : string) :
  onBeginResolve this options project = Ok d ->
  (isHomePage (Some (mkRenderedPage (Some url) (Some (Some d)))) = true <->
   exists pre post, url = pre +:+ homePath d +:+ post) /\
  isHomePage (Some (mkRenderedPage (Some url) (Some None))) = false /\
  isHomePage (Some (mkRenderedPage (Some EmptyString) (Some (Some d)))) = false /\
  isHomePage (Some (mkRenderedPage None (Some (Some d)))) = false /\
  isHomePage (Some (mkRenderedPage (Some url) None)) = false /\
  isHomePage None = false.
Proof.
  intros Hd. apply onBeginResolve_Ok in Hd.
  set (st := fold_left _ _ _) in Hd. subst d. split; [| repeat split].
  - unfold isHomePage. cbn [pageUrl pageProject].
    set (d := recordOf this options project st).
    destruct (String.length url =? 0)%nat eqn:Hlen.
    + apply length_zero_empty in Hlen. subst url. split; [discriminate |].
      intros (pre & post & Heq). exfalso.
      apply (homePath_nonempty this options project st). fold d.
      destruct pre; [| discriminate]. rewrite append_empty_l in Heq.
      destruct (homePath d); [reflexivity | discriminate].
    + unfold homePathFound. cbn. apply includes_spec.
  - unfold isHomePage. cbn [pageUrl pageProject].
    destruct (String.length url =? 0)%nat; reflexivity.
Qed.

Lemma isHomePage_iff_url_contains_homePath_witness :
  let d := Sample.index Sample.noOptions [Sample.Foo] in
  isHomePage (Some (mkRenderedPage (Some "docs/modules/_index_.mylib.html#foo")
                      (Some (Some d)))) = true.
Proof.
  cbv zeta.
  assert (Hd : onBeginResolve (onBegin Sample.noOptions) Sample.noOptions
                 (mkProject "my-lib" [Sample.Foo])
               = Ok (Sample.index Sample.noOptions [Sample.Foo])).
  { vm_compute. reflexivity. }
  destruct (isHomePage_iff_url_contains_homePath _ _ _ _
              "docs/modules/_index_.mylib.html#foo" Hd) as [Hiff _].
  apply Hiff. exists "docs/", "#foo". reflexivity.
Defined.

(** ** The outcome of the scan *)

Lemma reflectionOutcome_tagsOf (re : RegExp.t) (st : Scan) (ref : Reflection) :
  reflectionOutcome re st ref = tagsOutcome re (name ref) (tagsOf ref) st.
Proof.
  unfold reflectionOutcome, tagsOf. destruct (comment ref) as [[[ts |]] |]; reflexivity.
Qed.

Lemma find_no_match (re : RegExp.t) (ts : list CommentTag) :
  Forall (fun u => matchesTag re u = false) ts ->
  List.find (matchesTag re) ts = None /\ visitedTags re ts = ts.
Proof.
  induction 1 as [| u ts Hu Hno [IH1 IH2]]; [split; reflexivity |].
  cbn [List.find visitedTags]. rewrite Hu, IH1, IH2. split; reflexivity.
Qed.

Lemma find_first_match (re : RegExp.t) (pre post : list CommentTag) (t : CommentTag) :
  Forall (fun u => matchesTag re u = false) pre ->
  matchesTag re t = true ->
  List.find (matchesTag re) (pre ++ t :: post) = Some t /\
  visitedTags re (pre ++ t :: post) = pre ++ [t].
Proof.
  intros Hpre Ht. induction Hpre as [| u pre Hu Hno [IH1 IH2]];
    cbn [app List.find visitedTags].
  - rewrite Ht. split; reflexivity.
  - rewrite Hu, IH1, IH2. split; reflexivity.
Qed.

(** One iteration of the outer loop, read off the tags of the reflection. *)
Lemma reflectionOutcome_step (re : RegExp.t) (st : Scan) (ref : Reflection) :
  let st' := reflectionOutcome re st ref in
  scanGrouped st' = scanGrouped st ++ (if isGrouped re ref then [name ref] else []) /\
  scanMaped st' =
    match firstGroupingTag re ref with
    | Some t => pushed (scanMaped st) (Str.firstLine (text t)) (name ref)
    | None => scanMaped st
    end /\
  (forall x, x ∈ scanDeprecated st' <->
     x ∈ scanDeprecated st \/ (x = name ref /\ deprecationSeen re ref = true)).
Proof.
  cbv zeta. rewrite reflectionOutcome_tagsOf.
  unfold isGrouped, firstGroupingTag, deprecationSeen.
  destruct (first_match_split re (tagsOf ref)) as [Hno | (pre & t & post & Hts & Hpre & Ht)].
  - destruct (find_no_match re _ Hno) as [-> ->].
    destruct (tagsOutcome_no_match re (name ref) _ st Hno) as (-> & -> & Hd).
    rewrite app_nil_r. split; [reflexivity |]. split; [reflexivity |].
    intros x. rewrite Hd, existsb_exists.
    split; (intros [Hx | (-> & u & Hu & Hdep)]; [now left | right; split; [reflexivity |]]);
      exists u; split; auto; now apply matchesTag_deprecated.
  - rewrite Hts. destruct (find_first_match re pre post t Hpre Ht) as [-> ->].
    destruct (tagsOutcome_first_match re (name ref) pre post t st Hpre Ht) as (-> & -> & Hd).
    split; [reflexivity |]. split; [reflexivity |].
    intros x. rewrite Hd, existsb_exists.
    split; (intros [Hx | (-> & u & Hu & Hdep)]; [now left | right; split; [reflexivity |]]);
      exists u; split; auto; now apply matchesTag_deprecated.
Qed.

Lemma fold_scan_grouped (re : RegExp.t) (refs : list Reflection) (st : Scan) :
  scanGrouped (fold_left (reflectionOutcome re) refs st)
    = scanGrouped st ++ map name (List.filter (isGrouped re) refs).
Proof.
  revert st. induction refs as [| ref refs IH]; intros st; cbn [fold_left List.filter].
  - now rewrite app_nil_r.
  - rewrite IH. destruct (reflectionOutcome_step re st ref) as (-> & _ & _).
    destruct (isGrouped re ref); cbn [map]; now rewrite <- app_assoc.
Qed.

(** X8.  When the indexer returns, [groupedData] lists, in scan order, the names of the symbols
    that carry a tag the grouping pattern matches, once per symbol record
    (a name shared by two records is listed twice); symbols without
    comment or without tags are passed over. *)
Theorem groupedData_lists_grouped_symbols (this : TocGroupPlugin) (options : Options)
    (project : Project) (d : TocGroupData) :
  onBeginResolve this options project = Ok d ->
  groupedData d
    = map name (List.filter (isGrouped (regexp this)) (reflections project)).
Proof.
  intros Hd. apply onBeginResolve_Ok in Hd as ->. cbn [recordOf groupedData].
  now rewrite fold_scan_grouped.
Qed.

Lemma groupedData_lists_grouped_symbols_witness :
  let d := Sample.index Sample.noOptions [Sample.Foo; Sample.Baz; Sample.Qux] in
  onBeginResolve (onBegin Sample.noOptions) Sample.noOptions
    (mkProject "my-lib" [Sample.Foo; Sample.Baz; Sample.Qux]) = Ok d /\
  groupedData d = ["Foo"; "Qux"].
Proof.
  cbv zeta.
  assert (Hd : onBeginResolve (onBegin Sample.noOptions) Sample.noOptions
                 (mkProject "my-lib" [Sample.Foo; Sample.Baz; Sample.Qux])
               = Ok (Sample.index Sample.noOptions [Sample.Foo; Sample.Baz; Sample.Qux])).
  { vm_compute. reflexivity. }
  split; [exact Hd |].
  exact (groupedData_lists_grouped_symbols _ _ _ _ Hd).
Defined.

Lemma isFirstLine_eqb (key text : string) :
  isFirstLine key text = String.eqb (Str.firstLine text) key.
Proof.
  destruct (String.eqb_spec (Str.firstLine text) key) as [Heq | Hne].
  - now apply isFirstLine_spec.
  - apply not_true_is_false. intros Hk. now apply isFirstLine_spec in Hk.
Qed.

Lemma membersOf_cons (re : RegExp.t) (ref : Reflection) (refs : list Reflection)
    (k : string) :
  membersOf re (ref :: refs) k =
    (if hasGroupKey re k ref then [name ref] else []) ++ membersOf re refs k.
Proof.
  unfold membersOf. cbn [List.filter]. now destruct (hasGroupKey re k ref).
Qed.

Lemma fold_scan_members (re : RegExp.t) (refs : list Reflection) (st : Scan) (k : string) :
  JsObject.get (scanMaped (fold_left (reflectionOutcome re) refs st)) k =
    match membersOf re refs k with
    | [] => JsObject.get (scanMaped st) k
    | l => Some (default [] (JsObject.get (scanMaped st) k) ++ l)
    end.
Proof.
  revert st. induction refs as [| ref refs IH]; intros st; [reflexivity |].
  cbn [fold_left]. rewrite IH, membersOf_cons.
  destruct (reflectionOutcome_step re st ref) as (_ & -> & _).
  unfold hasGroupKey. destruct (firstGroupingTag re ref) as [t |].
  - rewrite isFirstLine_eqb, get_pushed.
    destruct (String.eqb_spec (Str.firstLine (text t)) k) as [-> | Hne].
    + cbn [app]. destruct (membersOf re refs k) as [| n l]; [reflexivity |].
      f_equal.
      change (default [] (Some (default [] (JsObject.get (scanMaped st) k) ++ [name ref])))
        with (default [] (JsObject.get (scanMaped st) k) ++ [name ref]).
      now rewrite <- app_assoc.
    + reflexivity.
  - reflexivity.
Qed.

(** X9.  When the indexer returns, the list stored under a group key
    holds, in scan order, the names of exactly the symbols whose first
    grouping tag has that key as the first line of its body, that is, as
    the text before its first carriage return or line feed; a key that
    no symbol has is absent. *)
Theorem group_list_is_membersOf (this : TocGroupPlugin) (options : Options)
    (project : Project) (d : TocGroupData) (key : string) :
  onBeginResolve this options project = Ok d ->
  JsObject.get (mapedTocData d) key =
    match membersOf (regexp this) (reflections project) key with
    | [] => None
    | l => Some l
    end.
Proof.
  intros Hd. apply onBeginResolve_Ok in Hd as ->.
  cbn [recordOf mapedTocData]. rewrite fold_scan_members.
  destruct (membersOf (regexp this) (reflections project) key); reflexivity.
Qed.

Lemma group_list_is_membersOf_witness :
  let d := Sample.index Sample.noOptions [Sample.Foo; Sample.Qux; Sample.Bar] in
  onBeginResolve (onBegin Sample.noOptions) Sample.noOptions
    (mkProject "my-lib" [Sample.Foo; Sample.Qux; Sample.Bar]) = Ok d /\
  JsObject.get (mapedTocData d) "Alpha" = Some ["Foo"; "Bar"] /\
  JsObject.get (mapedTocData d) "Gamma" = None.
Proof.
  cbv zeta.
  assert (Hd : onBeginResolve (onBegin Sample.noOptions) Sample.noOptions
                 (mkProject "my-lib" [Sample.Foo; Sample.Qux; Sample.Bar])
               = Ok (Sample.index Sample.noOptions [Sample.Foo; Sample.Qux; Sample.Bar])).
  { vm_compute. reflexivity. }
  split; [exact Hd |]. split.
  - exact (group_list_is_membersOf _ _ _ _ "Alpha" Hd).
  - exact (group_list_is_membersOf _ _ _ _ "Gamma" Hd).
Defined.

Lemma fold_scan_deprecated (re : RegExp.t) (refs : list Reflection) (st : Scan) (x : string) :
  x ∈ scanDeprecated (fold_left (reflectionOutcome re) refs st) <->
  x ∈ scanDeprecated st \/
  exists ref, In ref refs /\ name ref = x /\ deprecationSeen re ref = true.
Proof.
  revert st. induction refs as [| ref refs IH]; intros st; cbn [fold_left].
  - split; [now left | intros [Hx | (ref & [] & _)]; exact Hx].
  - rewrite IH. destruct (reflectionOutcome_step re st ref) as (_ & _ & Hd). rewrite Hd.
    split.
    + intros [[Hx | (-> & Hdep)] | (r & Hr & Hn & Hdep)].
      * now left.
      * right. exists ref. split; [now left | auto].
      * right. exists r. split; [now right | auto].
    + intros [Hx | (r & [<- | Hr] & Hn & Hdep)].
      * left. now left.
      * left. right. auto.
      * right. eauto.
Qed.

(** X10.  When the indexer returns, a name is a deprecated name exactly
    when some symbol of that name has a deprecation tag among the tags
    the loop visits, that is, no later than its first grouping tag: a
    deprecation tag written after the grouping tag is never seen. *)
Theorem deprecatedData_iff_deprecation_seen (this : TocGroupPlugin) (options : Options)
    (project : Project) (d : TocGroupData) (x : string) :
  onBeginResolve this options project = Ok d ->
  (x ∈ deprecatedData d <->
   exists ref,
     In ref (reflections project) /\ name ref = x /\
     existsb (matchesTag DEPRECATED_REGEXP) (visitedTags (regexp this) (tagsOf ref))
       = true).
Proof.
  intros Hd. apply onBeginResolve_Ok in Hd as ->.
  cbn [recordOf deprecatedData]. rewrite fold_scan_deprecated.
  split; [intros [Hx | Hx]; [| exact Hx] | intros Hx; now right].
  cbn in Hx. now apply not_elem_of_empty in Hx.
Qed.

Lemma deprecatedData_iff_deprecation_seen_witness :
  let d := Sample.index Sample.noOptions [Sample.Foo; Sample.Qux] in
  onBeginResolve (onBegin Sample.noOptions) Sample.noOptions
    (mkProject "my-lib" [Sample.Foo; Sample.Qux]) = Ok d /\
  "Qux" ∈ deprecatedData d.
Proof.
  cbv zeta.
  assert (Hd : onBeginResolve (onBegin Sample.noOptions) Sample.noOptions
                 (mkProject "my-lib" [Sample.Foo; Sample.Qux])
               = Ok (Sample.index Sample.noOptions [Sample.Foo; Sample.Qux])).
  { vm_compute. reflexivity. }
  split; [exact Hd |].
  apply (deprecatedData_iff_deprecation_seen _ _ _ _ "Qux" Hd).
  exists Sample.Qux. split; [right; left; reflexivity |]. split; reflexivity.
Defined.

(** ** The first grouping tag *)

Lemma tagsOutcome_ignores_rest (re : RegExp.t) (n : string) (pre post post' : list CommentTag)
    (t : CommentTag) (st : Scan) :
  Forall (fun u => matchesTag re u = false) pre ->
  matchesTag re t = true ->
  tagsOutcome re n (pre ++ t :: post) st = tagsOutcome re n (pre ++ t :: post') st.
Proof.
  intros Hno Ht. revert st.
  induction Hno as [| u pre Hu Hno IH]; intros st; cbn [tagsOutcome app].
  - now rewrite Ht.
  - rewrite Hu. apply IH.
Qed.

Lemma scanTags_runs (re : RegExp.t) (n : string) (pre post : list CommentTag)
    (t : CommentTag) (st : Scan) :
  Forall (fun u => matchesTag re u = false) pre ->
  matchesTag re t = true ->
  JsObject.inherits (Str.firstLine (text t)) = false ->
  scanTags re n (pre ++ t :: post) st = Ok (tagsOutcome re n (pre ++ t :: post) st).
Proof.
  intros Hno Ht Hi. revert st.
  induction Hno as [| u pre Hu Hno IH]; intros st; cbn [scanTags tagsOutcome app].
  - rewrite Ht. cbv zeta. now rewrite (pushTo_runs _ _ _ Hi).
  - rewrite Hu. apply IH.
Qed.

Lemma scanReflection_comment (re : RegExp.t) (st : Scan) (ref : Reflection)
    (ts : list CommentTag) :
  comment ref = Some (mkComment (Some ts)) ->
  scanReflection re st ref = scanTags re (name ref) ts st.
Proof. unfold scanReflection. now intros ->. Qed.

(** X18.  Let [t] be the first tag of a symbol that the grouping pattern
    matches, and [key] the first line of the body of [t]: the text before
    its first carriage return or line feed, the empty string if there is
    no body.  Unless [key] is a name that [Object.prototype] defines, the
    scan of the symbol returns; it appends the name once to [groupedData]
    and once to the list under [key], which it creates if need be, leaves
    every other list as it was, and does not depend on the tags after
    [t]. *)
Theorem first_grouping_tag_wins (re : RegExp.t) (ref : Reflection)
    (pre post : list CommentTag) (t : CommentTag) (st : Scan) (key : string) :
  comment ref = Some (mkComment (Some (pre ++ t :: post))) ->
  Forall (fun u => matchesTag re u = false) pre ->
  matchesTag re t = true ->
  isFirstLine key (text t) = true ->
  JsObject.inherits key = false ->
  exists st',
    scanReflection re st ref = Ok st' /\
    scanGrouped st' = scanGrouped st ++ [name ref] /\
    JsObject.get (scanMaped st') key
      = Some (default [] (JsObject.get (scanMaped st) key) ++ [name ref]) /\
    (forall k, k <> key -> JsObject.get (scanMaped st') k = JsObject.get (scanMaped st) k) /\
    (text t = EmptyString -> key = EmptyString) /\
    (forall post' ref',
       name ref' = name ref ->
       comment ref' = Some (mkComment (Some (pre ++ t :: post'))) ->
       scanReflection re st ref' = Ok st').
Proof.
  intros Hc Hpre Ht Hkey Hi. apply isFirstLine_spec in Hkey. subst key.
  exists (tagsOutcome re (name ref) (pre ++ t :: post) st).
  split.
  { rewrite (scanReflection_comment _ _ _ _ Hc). now apply scanTags_runs. }
  destruct (tagsOutcome_first_match re (name ref) pre post t st Hpre Ht) as (Hg & Hm & _).
  split; [assumption |]. rewrite Hm. split; [| split; [| split]].
  - rewrite get_pushed. now rewrite String.eqb_refl.
  - intros k Hk. rewrite get_pushed.
    destruct (String.eqb_spec (Str.firstLine (text t)) k); [congruence | reflexivity].
  - now intros ->.
  - intros post' ref' Hn Hc'. rewrite (scanReflection_comment _ _ _ _ Hc'), Hn.
    rewrite (scanTags_runs re (name ref) pre post' t st Hpre Ht Hi). f_equal.
    now apply tagsOutcome_ignores_rest.
Qed.

(** [Corge] carries [@group Gamma] and then [@platform web]; only [Gamma]
    receives it. *)
Lemma first_grouping_tag_wins_witness :
  let re := regexp (onBegin Sample.noOptions) in
  exists st',
    scanReflection re emptyScan Sample.Corge = Ok st' /\
    scanGrouped st' = ["Corge"] /\
    scanMaped st' = [("Gamma", ["Corge"])].
Proof.
  cbv zeta.
  destruct (first_grouping_tag_wins (regexp (onBegin Sample.noOptions)) Sample.Corge
              [] [Sample.tag "platform" "web"] (Sample.tag "group" "Gamma") emptyScan
              "Gamma") as (st' & Hrun & Hg & _).
  - reflexivity.
  - constructor.
  - vm_compute. reflexivity.
  - reflexivity.
  - reflexivity.
  - exists st'. split; [exact Hrun |]. split; [exact Hg |].
    vm_compute in Hrun. injection Hrun as <-. reflexivity.
Defined.

(** ** The shape of [mapedTocData] *)

Lemma get_None_not_key {V : Type} (obj : JsObject.t V) (k : string) :
  JsObject.get obj k = None <-> ~ In k (JsObject.ownKeys obj).
Proof.
  split.
  - intros Hget Hin. apply JsObjectFacts.ownKeys_get_Some in Hin as (v & Hv). congruence.
  - intros Hnot. destruct (JsObject.get obj k) as [v |] eqn:Hget; [| reflexivity].
    exfalso. eapply Hnot, JsObjectFacts.get_Some_ownKeys; eauto.
Qed.

Lemma ownKeys_set {V : Type} (obj : JsObject.t V) (k : string) (v : V) :
  JsObject.ownKeys (JsObject.set obj k v) =
    if Str.inArray k (JsObject.ownKeys obj) then JsObject.ownKeys obj
    else JsObject.ownKeys obj ++ [k].
Proof.
  destruct (JsObject.get obj k) as [w |] eqn:Hget.
  - rewrite (JsObjectFacts.ownKeys_set_present _ _ _ _ Hget).
    apply JsObjectFacts.get_Some_ownKeys, inArray_In in Hget. now rewrite Hget.
  - rewrite (JsObjectFacts.ownKeys_set_fresh _ _ _ Hget).
    apply get_None_not_key, inArray_not_In in Hget. now rewrite Hget.
Qed.

Lemma ownKeys_pushed (m : JsObject.t (list string)) (key x : string) :
  JsObject.ownKeys (pushed m key x) =
    if Str.inArray key (JsObject.ownKeys m) then JsObject.ownKeys m
    else JsObject.ownKeys m ++ [key].
Proof. unfold pushed. destruct (JsObject.get m key); apply ownKeys_set. Qed.

Lemma NoDup_keys {V : Type} (obj : JsObject.t V) :
  NoDup (JsObject.keys obj) <-> NoDup (JsObject.ownKeys obj).
Proof. now rewrite (JsObjectFacts.keys_Permutation obj). Qed.

Lemma NoDup_keys_set {V : Type} (obj : JsObject.t V) (k : string) (v : V) :
  NoDup (JsObject.keys obj) -> NoDup (JsObject.keys (JsObject.set obj k v)).
Proof.
  rewrite !NoDup_keys. intros Hnd. rewrite ownKeys_set.
  destruct (Str.inArray k (JsObject.ownKeys obj)) eqn:Hin; [assumption |].
  apply inArray_not_In in Hin. apply NoDup_app. repeat split; auto.
  - intros x Hx Hk. apply list_elem_of_In in Hx. apply list_elem_of_In in Hk.
    destruct Hk as [<- | []]. contradiction.
  - apply NoDup_singleton.
Qed.

Lemma wellFormedGroups_pushed (m : JsObject.t (list string)) (key x : string) :
  singleLine key -> wellFormedGroups m -> wellFormedGroups (pushed m key x).
Proof.
  intros Hkey [Hnd Hall]. split.
  - unfold pushed. destruct (JsObject.get m key); now apply NoDup_keys_set.
  - intros k l. rewrite get_pushed. destruct (String.eqb_spec key k) as [<- | Hne].
    + intros [= <-]. split; [| assumption].
      destruct (default [] (JsObject.get m key)); discriminate.
    + apply Hall.
Qed.

Lemma fold_scan_wellFormed (re : RegExp.t) (refs : list Reflection) (st : Scan) :
  wellFormedGroups (scanMaped st) ->
  wellFormedGroups (scanMaped (fold_left (reflectionOutcome re) refs st)).
Proof.
  revert st. induction refs as [| ref refs IH]; intros st Hwf; [assumption |].
  cbn [fold_left]. apply IH.
  destruct (reflectionOutcome_step re st ref) as (_ & -> & _).
  destruct (firstGroupingTag re ref) as [t |]; [| assumption].
  apply wellFormedGroups_pushed; [apply firstLine_idempotent | assumption].
Qed.

(** X11.  In every state of the record during a build, no group key
    occurs twice in [mapedTocData], no group is empty and no key holds a
    line break. *)
Theorem groups_are_wellFormed (d : TocGroupData) :
  reachable d -> wellFormedGroups (mapedTocData d).
Proof.
  induction 1 as [this options project d Hd | d toc Hd IH].
  - apply onBeginResolve_Ok in Hd as ->. cbn [recordOf mapedTocData].
    apply fold_scan_wellFormed.
    split; [constructor | intros k l Hget; discriminate].
  - destruct (mapedTocData d) as [| kv rest] eqn:Hm.
    + rewrite (buildGroupTocContent_empty d toc Hm). cbn [fst]. now rewrite Hm.
    + assert (Hne : mapedTocData d <> []) by congruence. rewrite <- Hm in IH.
      rewrite (buildGroupTocContent_nonempty d toc Hne).
      destruct (setUngrouped d toc) as [d1 |] eqn:Hs; cbn [fst]; [| assumption].
      destruct (setUngrouped_Ok _ _ _ Hs) as [-> | (Hget & items & Hch & Hdg & ->)];
        [assumption |].
      cbn [setMaped mapedTocData]. destruct IH as [Hnd Hall]. split.
      * now apply NoDup_keys_set.
      * intros k l. rewrite JsObjectFacts.get_set.
        destruct (String.eqb_spec DEFAULT_UNGROUPED_NAME k) as [<- | Hk].
        -- intros [= <-]. split; [assumption | reflexivity].
        -- apply Hall.
Qed.

Lemma groups_are_wellFormed_witness :
  wellFormedGroups
    (mapedTocData
       (fst (buildGroupTocContent
               (Sample.index Sample.noOptions [Sample.Foo; Sample.Bar; Sample.Baz])
               (Sample.treeOf [Sample.Foo; Sample.Bar; Sample.Baz])))).
Proof.
  apply groups_are_wellFormed.
  apply reach_page,
    (reach_indexed (onBegin Sample.noOptions) Sample.noOptions
       (mkProject "my-lib" [Sample.Foo; Sample.Bar; Sample.Baz])).
  vm_compute. reflexivity.
Defined.

(** ** The order of the group keys *)

Lemma filter_filter_implied {A : Type} (f g : A -> bool) (l : list A) :
  (forall x, f x = true -> g x = true) ->
  List.filter f (List.filter g l) = List.filter f l.
Proof.
  intros Himp. induction l as [| x l IH]; [reflexivity |]. cbn [List.filter].
  destruct (g x) eqn:Hg; cbn [List.filter].
  - now rewrite IH.
  - destruct (f x) eqn:Hf; [| assumption]. apply Himp in Hf. congruence.
Qed.

Lemma filter_filter_both {A : Type} (f g : A -> bool) (l : list A) :
  List.filter f (List.filter g l) = List.filter (fun x => f x && g x) l.
Proof.
  induction l as [| x l IH]; [reflexivity |]. cbn [List.filter].
  destruct (g x), (f x) eqn:Hf; cbn [List.filter andb]; rewrite ?Hf, IH; reflexivity.
Qed.

Lemma filter_all {A : Type} (f : A -> bool) (l : list A) :
  (forall x, f x = true) -> List.filter f l = l.
Proof.
  intros Hall. induction l as [| x l IH]; [reflexivity |].
  cbn [List.filter]. now rewrite Hall, IH.
Qed.

Lemma fold_scan_keys (re : RegExp.t) (refs : list Reflection) (st : Scan) :
  JsObject.ownKeys (scanMaped (fold_left (reflectionOutcome re) refs st)) =
    JsObject.ownKeys (scanMaped st) ++
    List.filter (fun k => negb (Str.inArray k (JsObject.ownKeys (scanMaped st))))
      (firstSeen (groupKeys re refs)).
Proof.
  revert st. induction refs as [| ref refs IH]; intros st.
  - cbn. now rewrite app_nil_r.
  - cbn [fold_left]. rewrite IH. unfold groupKeys. cbn [flat_map]. fold (groupKeys re refs).
    destruct (reflectionOutcome_step re st ref) as (_ & -> & _).
    destruct (firstGroupingTag re ref) as [t |]; [| reflexivity].
    set (key := Str.firstLine (text t)). set (K := JsObject.ownKeys (scanMaped st)).
    rewrite ownKeys_pushed. fold K. cbn [app firstSeen List.filter].
    destruct (Str.inArray key K) eqn:Hin; cbn [negb].
    + f_equal. symmetry. apply filter_filter_implied.
      intros x Hx. apply negb_true_iff. apply negb_true_iff in Hx.
      destruct (String.eqb_spec x key) as [-> | Hne]; [congruence | reflexivity].
    + rewrite <- app_assoc. cbn [app]. do 2 f_equal.
      rewrite filter_filter_both. apply List.filter_ext. intros x.
      unfold Str.inArray. rewrite existsb_app. cbn [existsb].
      rewrite orb_false_r, negb_orb. reflexivity.
Qed.

Lemma groupKeys_groupingTags (re : RegExp.t) (refs : list Reflection) :
  Forall2 (fun key t => isFirstLine key (text t) = true)
    (groupKeys re refs) (groupingTags re refs).
Proof.
  unfold groupKeys, groupingTags. induction refs as [| ref refs IH]; cbn [flat_map].
  - constructor.
  - destruct (firstGroupingTag re ref) as [t |]; cbn [app]; [| assumption].
    constructor; [now apply isFirstLine_spec | assumption].
Qed.

Lemma firstSeen_In (l : list string) (k : string) : In k (firstSeen l) -> In k l.
Proof.
  induction l as [| x l IH]; cbn [firstSeen]; [tauto |].
  intros [<- | Hin]; [now left | right]. apply filter_In in Hin as [Hin _]. auto.
Qed.

(** X12.  When the indexer returns, [Object.keys] lists the keys of
    [mapedTocData] thus: first the group keys that are array indices
    (the decimal text of an integer below [2^32 - 1]), in ascending
    numeric order, then the other group keys in the order the scan first
    meets them.  Without a numeric group key the order is the first-seen
    order. *)
Theorem group_keys_in_first_seen_order (this : TocGroupPlugin) (options : Options)
    (project : Project) (d : TocGroupData) :
  onBeginResolve this options project = Ok d ->
  exists keys,
    Forall2 (fun key t => isFirstLine key (text t) = true)
      keys (groupingTags (regexp this) (reflections project)) /\
    JsObject.keys (mapedTocData d) = JsObject.indicesFirst (firstSeen keys) /\
    (Forall (fun key => JsObject.isArrayIndex key = false) keys ->
     JsObject.keys (mapedTocData d) = firstSeen keys).
Proof.
  intros Hd. apply onBeginResolve_Ok in Hd as ->. cbn [recordOf mapedTocData].
  exists (groupKeys (regexp this) (reflections project)).
  split; [apply groupKeys_groupingTags |].
  assert (Hk : JsObject.keys
                 (scanMaped (fold_left (reflectionOutcome (regexp this))
                               (reflections project) emptyScan))
               = JsObject.indicesFirst
                   (firstSeen (groupKeys (regexp this) (reflections project)))).
  { unfold JsObject.keys. rewrite fold_scan_keys. cbn [emptyScan scanMaped].
    cbn [JsObject.ownKeys map app]. f_equal. now apply filter_all. }
  split; [exact Hk |]. intros Hplain. rewrite Hk.
  apply JsObjectFacts.indicesFirst_plain. rewrite List.Forall_forall in *.
  intros k Hin. now apply Hplain, firstSeen_In.
Qed.

Lemma group_keys_in_first_seen_order_witness :
  let d := Sample.index Sample.noOptions
             [Sample.Plugh; Sample.Garply; Sample.Xyzzy; Sample.Qux] in
  onBeginResolve (onBegin Sample.noOptions) Sample.noOptions
    (mkProject "my-lib" [Sample.Plugh; Sample.Garply; Sample.Xyzzy; Sample.Qux]) = Ok d /\
  JsObject.ownKeys (mapedTocData d) = ["10"; "Beta"; "2"] /\
  JsObject.keys (mapedTocData d) = ["2"; "10"; "Beta"] /\
  exists keys,
    Forall2 (fun key t => isFirstLine key (text t) = true) keys
      (groupingTags (regexp (onBegin Sample.noOptions))
         [Sample.Plugh; Sample.Garply; Sample.Xyzzy; Sample.Qux]) /\
    JsObject.keys (mapedTocData d) = JsObject.indicesFirst (firstSeen keys).
Proof.
  cbv zeta.
  assert (Hd : onBeginResolve (onBegin Sample.noOptions) Sample.noOptions
                 (mkProject "my-lib"
                    [Sample.Plugh; Sample.Garply; Sample.Xyzzy; Sample.Qux])
               = Ok (Sample.index Sample.noOptions
                       [Sample.Plugh; Sample.Garply; Sample.Xyzzy; Sample.Qux])).
  { vm_compute. reflexivity. }
  split; [exact Hd |]. split; [vm_compute; reflexivity |].
  split; [vm_compute; reflexivity |].
  destruct (group_keys_in_first_seen_order _ _ _ _ Hd) as (keys & Hkeys & Hk & _).
  exists keys. split; assumption.
Defined.

(** ** What the regrouper writes to the record *)

(** X13.  A call of [buildGroupTocContent] leaves [groupedData],
    [deprecatedData], the home path, the pattern and the sort table as
    they are and keeps every group with its list.  The only thing it may
    add is the key [Others], when groups exist and that key is absent,
    with the non-empty list of the titles of the page's top-level
    children that [groupedData] does not hold.  Once the key is there, no
    call changes the record. *)
Theorem regrouper_only_adds_Others (d : TocGroupData) (toc : NavigationItem) :
  let d' := fst (buildGroupTocContent d toc) in
  groupedData d' = groupedData d /\
  deprecatedData d' = deprecatedData d /\
  homePath d' = homePath d /\
  dataRegexp d' = dataRegexp d /\
  dataSortOrder d' = dataSortOrder d /\
  (forall k l, JsObject.get (mapedTocData d) k = Some l ->
               JsObject.get (mapedTocData d') k = Some l) /\
  (forall k l, JsObject.get (mapedTocData d') k = Some l ->
     JsObject.get (mapedTocData d) k = Some l \/
     (k = DEFAULT_UNGROUPED_NAME /\
      JsObject.get (mapedTocData d) DEFAULT_UNGROUPED_NAME = None /\
      mapedTocData d <> [] /\
      exists items, children toc = Some items /\ l = defaultGroups d items /\ l <> [])) /\
  (forall l, JsObject.get (mapedTocData d) DEFAULT_UNGROUPED_NAME = Some l -> d' = d).
Proof.
  cbv zeta. destruct (mapedTocData d) as [| kv rest] eqn:Hm.
  - rewrite (buildGroupTocContent_empty d toc Hm). cbn [fst]. rewrite Hm.
    repeat split; auto.
  - assert (Hne : mapedTocData d <> []) by congruence. rewrite <- Hm in *.
    rewrite (buildGroupTocContent_nonempty d toc Hne).
    destruct (setUngrouped d toc) as [d1 |] eqn:Hs; cbn [fst]; [| repeat split; auto].
    destruct (setUngrouped_frame _ _ _ Hs) as (H1 & H2 & H3 & H4 & H5 & H6).
    repeat (split; [assumption |]). split.
    + intros k l Hget.
      destruct (setUngrouped_Ok _ _ _ Hs) as [-> | (Hnone & items & Hch & Hdg & ->)];
        [now left |].
      cbn [setMaped mapedTocData] in Hget. rewrite JsObjectFacts.get_set in Hget.
      destruct (String.eqb_spec DEFAULT_UNGROUPED_NAME k) as [<- | Hk]; [| now left].
      injection Hget as <-. right. repeat split; auto. exists items. auto.
    + intros l Hl. rewrite (setUngrouped_present d toc l Hl) in Hs. congruence.
Qed.

(** ** When the regrouper returns, and what *)

Lemma groupFilter_needs_reflection (d : TocGroupData) (key : string) (gv : list string)
    (item : NavigationItem) (r : bool * NavigationItem) :
  groupFilter d key gv item = Ok r -> hasReflection item.
Proof.
  unfold groupFilter, hasReflection. destruct (reflection item); [discriminate | discriminate].
Qed.

Lemma groupFilter_member (d : TocGroupData) (key : string) (gv : list string)
    (item : NavigationItem) :
  hasReflection item ->
  exists item',
    groupFilter d key gv item = Ok (verdict d gv item, item') /\
    (verdict d gv item = true -> item' = memberNode d key item).
Proof.
  unfold hasReflection, groupFilter, verdict, memberNode.
  destruct (reflection item) as [r |]; [intros _ | congruence]. cbn.
  destruct (RegExp.test (dataRegexp d) (kindProbe r)); cbn.
  - eexists. split; [reflexivity | discriminate].
  - destruct (Str.inArray (title item) gv); eexists; split; try reflexivity. discriminate.
Qed.

Lemma filterShared_members (d : TocGroupData) (key : string) (gv : list string)
    (items : list NavigationItem) :
  Forall hasReflection items ->
  exists store',
    filterShared (groupFilter d key gv) items = Ok (map (verdict d gv) items, store') /\
    select (map (verdict d gv) items) store'
      = map (memberNode d key) (List.filter (verdict d gv) items).
Proof.
  unfold filterShared, select.
  induction 1 as [| x items Hx Hitems (store' & Hrun & Hsel)].
  - exists []. split; reflexivity.
  - destruct (groupFilter_member d key gv x Hx) as (x' & Hgx & Hmem).
    bind_inv Hrun as rs Hrs. injection Hrun as Hfst Hsnd.
    exists (x' :: store'). cbn [mapM]. rewrite Hgx, Hrs. cbn.
    rewrite Hfst, Hsnd. split; [reflexivity |].
    destruct (verdict d gv x) eqn:Hv; cbn.
    + now rewrite Hsel, (Hmem eq_refl).
    + exact Hsel.
Qed.

Lemma filterShared_needs_reflections (d : TocGroupData) (key : string) (gv : list string)
    (items : list NavigationItem) (r : list bool * list NavigationItem) :
  filterShared (groupFilter d key gv) items = Ok r -> Forall hasReflection items.
Proof.
  unfold filterShared. intros Hf. bind_inv Hf as rs Hrs. clear Hf.
  apply mapM_Forall2 in Hrs.
  induction Hrs as [| x y l l' Hx Hl IH]; constructor; auto.
  eapply groupFilter_needs_reflection; eauto.
Qed.

Lemma defaultGroups_nil (d : TocGroupData) (items : list NavigationItem) :
  defaultGroups d items = [] <-> allGrouped d items.
Proof.
  unfold allGrouped. split.
  - intros Hnil x Hx.
    destruct (Str.inArray (title x) (groupedData d)) eqn:Hin; [now apply inArray_In |].
    assert (Hd : In (title x) (defaultGroups d items)).
    { apply defaultGroups_spec. split; [now apply inArray_not_In | eauto]. }
    rewrite Hnil in Hd. destruct Hd.
  - intros Hall. destruct (defaultGroups d items) as [| n l] eqn:Hd; [reflexivity |].
    assert (Hn : In n (defaultGroups d items)) by (rewrite Hd; now left).
    apply defaultGroups_spec in Hn as (Hnot & x & Hx & <-). exfalso. auto.
Qed.

Lemma single_group_setUngrouped (d : TocGroupData) (toc : NavigationItem)
    (items : list NavigationItem) (key : string) (gv : list string) :
  mapedTocData d = [(key, gv)] ->
  children toc = Some items ->
  key = DEFAULT_UNGROUPED_NAME \/ allGrouped d items ->
  setUngrouped d toc = Ok d.
Proof.
  intros Hm Hch Hcase. unfold setUngrouped. rewrite Hm. cbn [JsObject.get].
  destruct (String.eqb_spec key DEFAULT_UNGROUPED_NAME) as [Hk | Hk]; [reflexivity |].
  destruct Hcase as [Hk' | Hall]; [contradiction |].
  rewrite Hch. cbn. apply defaultGroups_nil in Hall. now rewrite Hall.
Qed.

Lemma single_group_regroup (d : TocGroupData) (toc : NavigationItem)
    (items : list NavigationItem) (key : string) (gv : list string) :
  mapedTocData d = [(key, gv)] ->
  children toc = Some items ->
  Forall hasReflection items ->
  exists store',
    regroup d toc = Ok (setChildren toc (Some [groupRoot d store'
                          (key, map (verdict d gv) items)])) /\
    select (map (verdict d gv) items) store'
      = map (memberNode d key) (List.filter (verdict d gv) items).
Proof.
  intros Hm Hch Hrefl.
  destruct (filterShared_members d key gv items Hrefl) as (store' & Hrun & Hsel).
  exists store'. split; [| exact Hsel].
  unfold regroup. rewrite Hch, Hm, JsObjectFacts.keys_singleton.
  cbn [mapKeys]. rewrite Hm. cbn [JsObject.get]. rewrite String.eqb_refl.
  cbn. rewrite Hrun. reflexivity.
Qed.

(** X14.  With one group [key] in the record, a tree whose top-level
    children all have a reflection, and either [key = Others] or no
    ungrouped child on the page, the call leaves the record as it is and
    returns the tree with a single top-level node: title and [groupTitle]
    [key], link [homePath], no reflection, and as children, in tree
    order, the default children that pass the kind filter and whose title
    is in the group's list, each with its back-pointer set to the group
    and flagged deprecated if its title is a deprecated name. *)
Theorem single_group_tree (d : TocGroupData) (toc : NavigationItem)
    (items : list NavigationItem) (key : string) (gv : list string) :
  mapedTocData d = [(key, gv)] ->
  children toc = Some items ->
  Forall hasReflection items ->
  key = DEFAULT_UNGROUPED_NAME \/ allGrouped d items ->
  buildGroupTocContent d toc =
    (d, Ok (setChildren toc (Some
       [mkNavigationItem key (homePath d) None
          (Some (map (memberNode d key) (List.filter (verdict d gv) items)))
          None false (Some key)]))).
Proof.
  intros Hm Hch Hrefl Hcase.
  assert (Hne : mapedTocData d <> []) by (rewrite Hm; discriminate).
  rewrite (buildGroupTocContent_nonempty d toc Hne).
  rewrite (single_group_setUngrouped d toc items key gv Hm Hch Hcase).
  destruct (single_group_regroup d toc items key gv Hm Hch Hrefl) as (store' & -> & Hsel).
  unfold groupRoot. cbn [fst snd]. now rewrite Hsel.
Qed.

Lemma single_group_tree_witness :
  let d := Sample.index Sample.noOptions [Sample.Qux] in
  buildGroupTocContent d (Sample.treeOf [Sample.Qux]) =
    (d, Ok (setChildren (Sample.treeOf [Sample.Qux]) (Some
       [mkNavigationItem "Beta" (homePath d) None
          (Some (map (memberNode d "Beta")
                   (List.filter (verdict d ["Qux"]) [Sample.itemOf Sample.Qux])))
          None false (Some "Beta")]))).
Proof.
  cbv zeta.
  apply (single_group_tree (Sample.index Sample.noOptions [Sample.Qux])
           (Sample.treeOf [Sample.Qux]) [Sample.itemOf Sample.Qux] "Beta" ["Qux"]).
  - vm_compute. reflexivity.
  - reflexivity.
  - repeat constructor. discriminate.
  - right. intros x [<- | []]. vm_compute. auto.
Defined.

(** X15.  When groups are recorded, the call returns a tree in the
    situation of X14 only: the tree has a child list, every top-level
    child has a reflection, the record holds exactly one group, and that
    group is [Others] or the page has no ungrouped child.  In every other
    case it throws. *)
Theorem regrouper_returns_iff_single_group (d : TocGroupData) (toc : NavigationItem) :
  mapedTocData d <> [] ->
  ((exists toc', snd (buildGroupTocContent d toc) = Ok toc') <->
   exists items key gv,
     children toc = Some items /\
     Forall hasReflection items /\
     mapedTocData d = [(key, gv)] /\
     (key = DEFAULT_UNGROUPED_NAME \/ allGrouped d items)).
Proof.
  intros Hne. split.
  - intros (toc' & Hok). rewrite (buildGroupTocContent_nonempty d toc Hne) in Hok.
    destruct (setUngrouped d toc) as [d1 |] eqn:Hs; cbn [snd] in Hok; [| discriminate].
    assert (Hlen1 : (length (JsObject.keys (mapedTocData d1)) < 2)%nat).
    { destruct (le_lt_dec 2 (length (JsObject.keys (mapedTocData d1)))) as [Hge | Hlt];
        [| assumption].
      rewrite (regroup_throws d1 toc Hge) in Hok. discriminate. }
    rewrite JsObjectFacts.length_keys in Hlen1.
    unfold regroup in Hok. bind_inv Hok as items Hitems.
    destruct (children toc) as [items0 |] eqn:Hch; [| discriminate].
    injection Hitems as ->.
    assert (Hd1 : d1 = d /\
                  (JsObject.get (mapedTocData d) DEFAULT_UNGROUPED_NAME <> None \/
                   allGrouped d items)).
    { unfold setUngrouped in Hs.
      destruct (JsObject.get (mapedTocData d) DEFAULT_UNGROUPED_NAME) eqn:Hget.
      - injection Hs as <-. split; [reflexivity | left; discriminate].
      - rewrite Hch in Hs. cbn in Hs.
        destruct (defaultGroups d items) as [| n others] eqn:Hdg; cbn in Hs;
          injection Hs as <-.
        + split; [reflexivity | right; now apply defaultGroups_nil].
        + exfalso. cbn [setMaped mapedTocData] in Hlen1.
          rewrite (JsObjectFacts.length_set_fresh _ _ _ Hget) in Hlen1.
          destruct (mapedTocData d); [congruence | cbn in Hlen1; lia]. }
    destruct Hd1 as (-> & Hcase).
    destruct (mapedTocData d) as [| [key gv] rest] eqn:Hm; [congruence |].
    destruct rest as [| kv rest]; [| cbn in Hlen1; lia].
    exists items, key, gv. split; [reflexivity |]. split; [| split; [reflexivity |]].
    + bind_inv Hok as r Hmap. rewrite JsObjectFacts.keys_singleton in Hmap.
      cbn [mapKeys] in Hmap.
      bind_inv Hmap as gv' Hgv. bind_inv Hmap as r1 Hr1.
      eapply filterShared_needs_reflections; eauto.
    + destruct Hcase as [Hget | Hall]; [| now right]. left.
      cbn [JsObject.get] in Hget.
      destruct (String.eqb_spec key DEFAULT_UNGROUPED_NAME); [assumption | congruence].
  - intros (items & key & gv & Hch & Hrefl & Hm & Hcase).
    rewrite (buildGroupTocContent_nonempty d toc Hne).
    rewrite (single_group_setUngrouped d toc items key gv Hm Hch Hcase). cbn [snd].
    destruct (single_group_regroup d toc items key gv Hm Hch Hrefl) as (store' & -> & _).
    eauto.
Qed.

Lemma regrouper_returns_iff_single_group_witness :
  let d := Sample.index Sample.noOptions [Sample.Foo; Sample.Baz] in
  let toc := Sample.treeOf [Sample.Foo; Sample.Baz] in
  mapedTocData d <> [] /\
  ~ (exists toc', snd (buildGroupTocContent d toc) = Ok toc').
Proof.
  cbv zeta.
  assert (Hne : mapedTocData (Sample.index Sample.noOptions [Sample.Foo; Sample.Baz]) <> []).
  { vm_compute. discriminate. }
  split; [exact Hne |]. intros Hok.
  apply (regrouper_returns_iff_single_group _ _ Hne) in Hok
    as (items & key & gv & Hch & _ & Hm & Hcase).
  vm_compute in Hm. injection Hm as <- <-.
  injection Hch as <-. destruct Hcase as [Hk | Hall]; [discriminate |].
  specialize (Hall (Sample.itemOf Sample.Baz) (or_intror (or_introl eq_refl))).
  vm_compute in Hall. intuition discriminate.
Defined.

(** ** The trail above the page's model *)

Section Trail.
Context `{TocPlugin}.

Lemma parent_ind (P : Reflection -> Prop) :
  (forall r, (forall p, parent r = Some p -> P p) -> P r) ->
  forall r, P r.
Proof.
  intros Hstep r.
  assert (Hall : forall n r, length (ancestors r) = n -> P r).
  { clear r. induction n as [| n IH]; intros r Hlen; apply Hstep; intros p Hp.
    - destruct r as [? ? ? ? ? [p0 |]]; cbn in *; [discriminate | discriminate].
    - apply IH. destruct r as [? ? ? ? ? [p0 |]]; cbn in *; [| discriminate].
      injection Hp as ->. now injection Hlen. }
  now apply (Hall (length (ancestors r))).
Qed.

Lemma climb_unfold (m : Reflection) (trail : list Reflection) :
  climb m trail =
    if isProject m || kindOf m SomeModule then Ok (m, trail)
    else match parent m with
         | Some p => climb p (m :: trail)
         | None => TypeError
         end.
Proof. destruct m; reflexivity. Qed.

Lemma ancestors_unfold (m : Reflection) :
  ancestors m = match parent m with Some p => p :: ancestors p | None => [] end.
Proof. destruct m; reflexivity. Qed.

Lemma climb_Ok (m : Reflection) :
  forall acc top trail,
    climb m acc = Ok (top, trail) ->
    exists path,
      trail = path ++ acc /\
      isProject top || kindOf top SomeModule = true /\
      Forall (fun r => isProject r || kindOf r SomeModule = false) path /\
      m :: ancestors m = rev path ++ top :: ancestors top.
Proof.
  induction m as [m IH] using parent_ind. intros acc top trail.
  rewrite climb_unfold.
  destruct (isProject m || kindOf m SomeModule) eqn:Hstop.
  - intros [= <- <-]. exists []. repeat split; [assumption | constructor].
  - destruct (parent m) as [p |] eqn:Hp; [| discriminate].
    intros Hc. destruct (IH p eq_refl _ _ _ Hc) as (path & -> & Htop & Hpath & Hchain).
    exists (path ++ [m]). rewrite <- app_assoc. split; [reflexivity |].
    split; [assumption |]. split.
    + apply Forall_app. split; [assumption | now constructor].
    + rewrite rev_app_distr. cbn [rev app]. rewrite (ancestors_unfold m), Hp.
      now rewrite Hchain.
Qed.

Lemma climb_TypeError (m : Reflection) :
  forall acc,
    climb m acc = TypeError <->
    Forall (fun r => isProject r || kindOf r SomeModule = false) (m :: ancestors m).
Proof.
  induction m as [m IH] using parent_ind. intros acc.
  rewrite climb_unfold, (ancestors_unfold m).
  destruct (isProject m || kindOf m SomeModule) eqn:Hstop.
  - split; [discriminate |]. intros Hall. inversion Hall. congruence.
  - destruct (parent m) as [p |] eqn:Hp.
    + rewrite (IH p eq_refl). split; [now constructor | intros Hall; now inversion Hall].
    + split; [intros _; repeat constructor; assumption | reflexivity].
Qed.

(** X16.  The loop of the page handler walks up from the model to the
    nearest reflection that is the project or a module.  It returns that
    reflection and, as the trail, the reflections below it on the way
    down to the model, the model last; none of them is the project or a
    module.  If no reflection on the way up is the project or a module,
    the walk runs off the top and the handler throws, leaving the record
    as it is. *)
Theorem trail_leads_to_nearest_module (d : TocGroupData) (page : PageEvent)
    (m : Reflection) :
  model page = Some m ->
  (forall top trail,
     climb m [] = Ok (top, trail) ->
     isProject top || kindOf top SomeModule = true /\
     Forall (fun r => isProject r || kindOf r SomeModule = false) trail /\
     m :: ancestors m = rev trail ++ top :: ancestors top) /\
  (Forall (fun r => isProject r || kindOf r SomeModule = false) (m :: ancestors m) <->
   climb m [] = TypeError) /\
  (climb m [] = TypeError -> onBeginRendererPage d page = (d, TypeError)).
Proof.
  intros Hm. split; [| split].
  - intros top trail Hc. destruct (climb_Ok m [] top trail Hc) as (path & -> & H1 & H2 & H3).
    rewrite app_nil_r. auto.
  - symmetry. apply climb_TypeError.
  - intros Hc. unfold onBeginRendererPage. now rewrite Hm, Hc.
Qed.

End Trail.

Lemma trail_leads_to_nearest_module_witness :
  let host := Sample.listing [Sample.Widget] in
  let page := mkPageEvent (Some Sample.render) None in
  model page = Some Sample.render /\
  climb Sample.render [] = Ok (Sample.root, [Sample.Widget; Sample.render]) /\
  Sample.render :: ancestors Sample.render
    = rev [Sample.Widget; Sample.render] ++ Sample.root :: ancestors Sample.root.
Proof.
  cbv zeta. split; [reflexivity |]. split; [reflexivity |].
  apply (proj1 (@trail_leads_to_nearest_module (Sample.listing [Sample.Widget])
                  (Sample.index Sample.noOptions [])
                  (mkPageEvent (Some Sample.render) None) Sample.render eq_refl)
           Sample.root [Sample.Widget; Sample.render]).
  reflexivity.
Defined.

(** ** The kind filter under the usual configurations *)

(** X17.  The option entries are free of regular-expression operators.
    Then, unless an entry begins with an exclamation mark, the kind
    filter lets every reflection pass: with the built-in names alone no
    child is ever dropped for its kind. *)
Theorem kind_filter_passes_without_bang_names (options : Options) (r : Reflection) :
  plainOptions options ->
  (forall a, In a (Str.split "," (orElse (tocGroupOption options) EmptyString)) ->
     String.prefix "!" a = false) ->
  RegExp.test (regexp (onBegin options)) (kindProbe r) = false.
Proof.
  intros _ Hbang. apply not_true_is_false. rewrite onBegin_alternatives.
  intros Ht. apply kindProbe_test in Ht as (a & Hin & Hp).
  apply in_app_iff in Hin as [Hin | Hin].
  - destruct Hin as [<- | [<- | [<- | []]]]; discriminate.
  - apply filter_In in Hin as [Hin Hlen]. specialize (Hbang a Hin).
    destruct a as [| c a]; [discriminate |].
    cbn in Hp. destruct (ascii_dec c "!") as [-> | Hne]; [| discriminate].
    change (String "!" a) with ("!" +:+ a) in Hbang.
    rewrite (RegExpFacts.prefix_app "!" a) in Hbang. discriminate.
Qed.

Lemma kind_filter_passes_without_bang_names_witness :
  let options := mkOptions (Some "category,64") None None in
  RegExp.test (regexp (onBegin options)) (kindProbe Sample.Foo) = false.
Proof.
  cbv zeta. apply kind_filter_passes_without_bang_names.
  - unfold plainOptions. vm_compute. repeat constructor.
  - intros a Hin. vm_compute in Hin.
    destruct Hin as [<- | [<- | []]]; reflexivity.
Defined.
